(** * claude-bridge: the discovery and link-reconciliation engine

    A shallow embedding of [scripts/claude-bridge.py]: the plugin classifier
    [is_plugin_dir], the link primitives [create_link], [create_file_link]
    and [remove_link], the resolver [resolve_plugin] and the [sync] command
    [cmd_sync], over an explicit model of the three directories the script
    works on.

    The marketplace (read only) is a tree of directory listings kept in the
    order the operating system returns them.  The two destination
    directories are finite maps from entry names to entries and are threaded
    through the code as explicit state, together with the lines the script
    prints.  Operating-system calls return a sum: the exception they raise,
    or the new directory.

    What the model takes for granted:
    - a name is one path component; the volume that holds the two
      destination directories finds an entry under any name it does not
      tell apart from the stored one ([casefold]: on a case-insensitive
      volume [exists()], [is_symlink()] and the creation of a link treat
      [Demo] and [demo] as one name), while the script compares names as
      strings; [remove_link] is given names as the listing returns them;
    - the three directories are distinct and none lies inside another; each
      destination is a directory or is missing;
    - listing a directory, [mkdir] and [print] succeed: the script does not
      catch their errors, so a failure there ends the run;
    - what a link resolves to is recorded in the link;
    - the outside reasons for a system call to fail ([fault]) are part of
      the platform and stay the same as long as the platform does. *)

From stdpp Require Import base option list gmap strings sorting.

Set Warnings "-register-all".

(** ** Strings and paths *)

(** [s.startswith(pre)] *)
Definition startswith (s pre : string) : bool := String.prefix pre s.

(** [s.endswith(suf)] *)
Definition endswith (s suf : string) : bool :=
  String.prefix (String.rev suf) (String.rev s).

(** [needle in s] on [str]: substring test. *)
Fixpoint contains (needle s : string) : bool :=
  String.prefix needle s
  || match s with
     | EmptyString => false
     | String _ s' => contains needle s'
     end.

(** [parent / name] of [pathlib], for a [name] that is a single component. *)
Definition joinpath (parent name : string) : string := parent +:+ "/" +:+ name.
Infix "</>" := joinpath (at level 50, left associativity).

(** ** Constants *)

Definition PLUGIN_INDICATORS : list string :=
  ["plugin.json"; "skills"; "hooks"; "agents"; "commands"; "README.md"].

Definition EXCLUDE_NAMES : gset string :=
  {[ ".git"; ".github"; ".claude"; ".claude-plugin"; "node_modules";
     "__pycache__"; ".venv"; "tests"; "test"; "docs"; "doc"; "src"; "dist";
     "build" ]}.

(** ** The file system *)

(** What a path resolves to once links are followed. *)
Inductive kind := KFile | KDir.

(** The marketplace side, as [stat] sees it (links are followed): a file, a
    directory with its listing in [scandir] order, or a path that does not
    resolve (a missing path; in a listing, a link whose target is missing). *)
Inductive snode :=
| SFile
| SDir (entries : list (string * snode))
| SBroken.

Definition resolution (n : snode) : option kind :=
  match n with
  | SFile => Some KFile
  | SDir _ => Some KDir
  | SBroken => None
  end.

(** [Path.exists()] and [Path.is_dir()] on the marketplace side. *)
Definition snode_exists (n : snode) : bool :=
  match n with SBroken => false | _ => true end.
Definition snode_is_dir (n : snode) : bool :=
  match n with SDir _ => true | _ => false end.

(** The entry called [name] in a listing. *)
Fixpoint child (name : string) (entries : list (string * snode)) : option snode :=
  match entries with
  | [] => None
  | (n, node) :: rest => if bool_decide (n = name) then Some node else child name rest
  end.

(** [path / name] on the marketplace side. *)
Definition sub (path : snode) (name : string) : snode :=
  match path with
  | SDir entries => default SBroken (child name entries)
  | _ => SBroken
  end.

(** [path.iterdir()] of a marketplace directory. *)
Definition iterdir (path : snode) : list (string * snode) :=
  match path with SDir entries => entries | _ => [] end.

(** The destination side.  A link records the path it points to and what
    that path resolves to ([None]: the target is missing, the link
    dangles).  Junctions exist on Windows only. *)
Inductive link_kind := Symbolic | Junction.

Inductive dnode :=
| DFile
| DDir (contents : list string)
| DLink (lk : link_kind) (target : string) (res : option kind).

(** [Path.exists()], [is_dir()], [is_file()] follow links; [is_symlink()]
    does not, and is false on a junction. *)
Definition path_exists (e : option dnode) : bool :=
  match e with
  | Some DFile | Some (DDir _) | Some (DLink _ _ (Some _)) => true
  | _ => false
  end.
Definition path_is_dir (e : option dnode) : bool :=
  match e with
  | Some (DDir _) | Some (DLink _ _ (Some KDir)) => true
  | _ => false
  end.
Definition path_is_file (e : option dnode) : bool :=
  match e with
  | Some DFile | Some (DLink _ _ (Some KFile)) => true
  | _ => false
  end.
Definition path_is_symlink (e : option dnode) : bool :=
  match e with
  | Some (DLink Symbolic _ _) => true
  | _ => false
  end.

(** [Path.resolve()] of the entry [root / name]: a link yields its target,
    anything else the path itself ([root] is taken to be canonical). *)
Definition realpath (root name : string) (e : option dnode) : string :=
  match e with
  | Some (DLink _ target _) => target
  | _ => root </> name
  end.

Record filesystem := Filesystem {
  marketplace : option (list (string * snode));
  bridge_plugins : option (gmap string dnode);
  global_workflows : option (gmap string dnode)
}.

(** ** Exceptions, system calls and the platform *)

Inductive exn :=
| FileExistsError
| FileNotFoundError
| PermissionError
| IsADirectoryError
| NotADirectoryError
| OSError
| CalledProcessError.

Inductive mklink_flag := FlagJ | FlagH.

Inductive syscall :=
| sys_symlink (dest : string)
| sys_mklink (flag : mklink_flag) (dest : string)
| sys_rmdir (path : string)
| sys_remove (path : string).

(** The platform the script runs on: [is_windows] is
    [platform.system() == "Windows"]; [normcase] is the case normalisation
    [pathlib] applies when it compares or matches paths (identity on POSIX,
    lower-casing on Windows); [casefold] is the folding under which the
    volume of the destination directories looks names up: two names with the
    same fold are one name to it (the identity on a case-sensitive volume, a
    case folding on the usual NTFS and APFS volumes); [home] is
    [Path.home()]; [fault] says which system calls fail for a reason outside
    the modelled directories (permissions, a read-only volume, a missing
    [cmd] executable). *)
Record platform := Platform {
  is_windows : bool;
  normcase : string → string;
  casefold : string → string;
  home : string;
  fault : syscall → option exn
}.

(** What the volume finds under [name] in the directory with listing [d]:
    the entry stored under that very name, or else an entry whose name it
    does not tell apart from [name] (a directory of such a volume holds at
    most one), together with the name as stored. *)
Definition find_entry (env : platform) (d : gmap string dnode) (name : string)
    : option (string * dnode) :=
  match d !! name with
  | Some x => Some (name, x)
  | None =>
      head (filter (λ p, casefold env p.1 = casefold env name) (map_to_list d))
  end.

Definition found (env : platform) (d : gmap string dnode) (name : string)
    : option dnode :=
  snd <$> find_entry env d name.

(** What a call does to the entry it is aimed at: [inl e] raises [e],
    [inr o] replaces the entry by [o]. *)
Definition symlink_entry (target : string) (res : option kind)
    (e : option dnode) : exn + option dnode :=
  match e with
  | Some _ => inl FileExistsError
  | None => inr (Some (DLink Symbolic target res))
  end.

(** [cmd /c mklink /J dest source] and [mklink /H dest source], run with
    [check=True]: a non-zero exit status raises.  A hard link needs an
    existing source that is not a directory and is afterwards an ordinary
    file. *)
Definition mklink_entry (flag : mklink_flag) (target : string)
    (res : option kind) (e : option dnode) : exn + option dnode :=
  match e with
  | Some _ => inl CalledProcessError
  | None =>
      match flag with
      | FlagJ => inr (Some (DLink Junction target res))
      | FlagH =>
          match res with
          | Some KFile => inr (Some DFile)
          | _ => inl CalledProcessError
          end
      end
  end.

(** [os.rmdir]: removes an empty directory; on Windows also a junction or a
    directory link, leaving the target alone.  Never removes contents. *)
Definition rmdir_entry (windows : bool) (e : option dnode) : exn + option dnode :=
  match e with
  | None => inl FileNotFoundError
  | Some DFile => inl NotADirectoryError
  | Some (DDir []) => inr None
  | Some (DDir (_ :: _)) => inl OSError
  | Some (DLink lk _ res) =>
      match windows, lk, res with
      | true, Junction, _ | true, Symbolic, Some KDir => inr None
      | _, _, _ => inl NotADirectoryError
      end
  end.

(** [os.remove] and [Path.unlink]: remove a file or a link, refuse a
    directory. *)
Definition remove_entry (windows : bool) (e : option dnode) : exn + option dnode :=
  match e with
  | None => inl FileNotFoundError
  | Some DFile => inr None
  | Some (DDir _) => inl (if windows then PermissionError else IsADirectoryError)
  | Some (DLink _ _ _) => inr None
  end.

(** Running a call on the entry stored as [name] in the directory [root],
    whose listing is [d]. *)
Definition run_syscall (env : platform) (call : syscall)
    (effect : option dnode → exn + option dnode)
    (name : string) (d : gmap string dnode) : exn + gmap string dnode :=
  match fault env call with
  | Some e => inl e
  | None =>
      match effect (d !! name) with
      | inl e => inl e
      | inr o => inr (partial_alter (λ _, o) name d)
      end
  end.

(** Running a call that creates the entry [name]: the name is taken when
    the volume finds anything under it, and a new entry is stored under the
    name as given. *)
Definition run_create (env : platform) (call : syscall)
    (effect : option dnode → exn + option dnode)
    (name : string) (d : gmap string dnode) : exn + gmap string dnode :=
  match fault env call with
  | Some e => inl e
  | None =>
      match effect (found env d name) with
      | inl e => inl e
      | inr o => inr (partial_alter (λ _, o) name d)
      end
  end.

Definition os_symlink (env : platform) (target : string) (res : option kind)
    (root name : string) (d : gmap string dnode) : exn + gmap string dnode :=
  run_create env (sys_symlink (root </> name)) (symlink_entry target res) name d.

Definition mklink (env : platform) (flag : mklink_flag) (target : string)
    (res : option kind) (root name : string) (d : gmap string dnode)
    : exn + gmap string dnode :=
  run_create env (sys_mklink flag (root </> name)) (mklink_entry flag target res) name d.

Definition os_rmdir (env : platform) (root name : string)
    (d : gmap string dnode) : exn + gmap string dnode :=
  run_syscall env (sys_rmdir (root </> name)) (rmdir_entry (is_windows env)) name d.

Definition os_remove (env : platform) (root name : string)
    (d : gmap string dnode) : exn + gmap string dnode :=
  run_syscall env (sys_remove (root </> name)) (remove_entry (is_windows env)) name d.

(** [sorted(path.iterdir())]: paths of one directory compare by their
    case-normalised names. *)
Definition path_le (env : platform) {A} (a b : string * A) : Prop :=
  String.le (normcase env a.1) (normcase env b.1).

Global Instance path_le_dec env {A} : RelDecision (@path_le env A).
Proof. intros a b. unfold path_le. apply _. Defined.

Definition sorted (env : platform) {A} (l : list (string * A)) : list (string * A) :=
  merge_sort (path_le env) l.

(** ** Paths of the three directories *)

Definition get_claude_marketplace (env : platform) : string :=
  home env </> ".claude" </> "plugins" </> "marketplaces".

Definition get_bridge_plugins_dir (env : platform) : string :=
  home env </> ".gemini" </> "antigravity" </> "skills" </> "claude-bridge" </> "plugins".

Definition get_global_workflows_dir (env : platform) : string :=
  home env </> ".gemini" </> "antigravity" </> "global_workflows".

(** ** Output *)

Record counts := Counts {
  bridged : nat;
  new : nat;
  existing : nat;
  removed : nat
}.

(** The lines [cmd_sync] and the link primitives print. *)
Inductive msg :=
| MBanner
| MNoMarketplace
| MMarketplace (mp_name : string)
| MLinkPlugin (plugin : string)
| MLinkWorkflow (file wf_name : string)
| MRemovePlugin (name : string)
| MRemoveWorkflow (name : string)
| MFailLinkDir (e : exn)
| MFailLinkFile (e : exn)
| MFailRemove (e : exn)
| MDone (plugins workflows : counts).

(** ** The plugin classifier *)

Definition is_plugin_dir (name : string) (path : snode) : bool :=
  if startswith name "." || bool_decide (name ∈ EXCLUDE_NAMES) then false
  else existsb (λ indicator, snode_exists (sub path indicator)) PLUGIN_INDICATORS.

(** ** The link primitives *)

(** [try: ... return True / except Exception as e: print(...); return False] *)
Definition try_except (failed : exn → msg) (d : gmap string dnode)
    (r : exn + gmap string dnode) : bool * gmap string dnode * list msg :=
  match r with
  | inr d' => (true, d', [])
  | inl e => (false, d, [failed e])
  end.

(** [source] is the path linked to and [res] what it resolves to; the
    destination is the entry [name] of the directory [root] with listing
    [d].  [remove_link] is called on the paths a listing returned: [name]
    is there the name of an entry as stored. *)
Definition create_link (env : platform) (source : string) (res : option kind)
    (root name : string) (is_windows : bool) (d : gmap string dnode)
    : bool * gmap string dnode * list msg :=
  try_except MFailLinkDir d
    (if is_windows then mklink env FlagJ source res root name d
     else os_symlink env source res root name d).

Definition create_file_link (env : platform) (source : string) (res : option kind)
    (root name : string) (is_windows : bool) (d : gmap string dnode)
    : bool * gmap string dnode * list msg :=
  try_except MFailLinkFile d
    (if is_windows then mklink env FlagH source res root name d
     else os_symlink env source res root name d).

Definition remove_link (env : platform) (root name : string)
    (is_windows : bool) (d : gmap string dnode)
    : bool * gmap string dnode * list msg :=
  try_except MFailRemove d
    (if is_windows then
       if path_is_dir (d !! name) then os_rmdir env root name d
       else os_remove env root name d
     else
       if path_is_symlink (d !! name) || path_is_file (d !! name)
       then os_remove env root name d
       else os_rmdir env root name d).

(** ** The resolver *)

(** How a call of [resolve_plugin] ends: it returns a path, leaves through
    [sys.exit(1)] after printing the matches or the not-found line, or
    raises. *)
Inductive resolved :=
| Resolved (p : string)
| Ambiguous (candidates : list string)
| NotFound
| Raised (e : exn).

(** The name under which [Path.resolve()] returns an entry that is not a
    link, found under [name] and stored as [stored]: Windows answers with
    the name as stored, elsewhere the name is left as it was given. *)
Definition resolved_name (env : platform) (name stored : string) : string :=
  if is_windows env then stored else name.

(** [bridge] is the listing of [bridge_plugins], [None] when the directory
    is missing (then [iterdir] raises).  With the empty name or a single
    dot [bridge_plugins / name] is the directory itself; any other [name]
    is taken to be a single path component (with a separator or [..] in it
    the path leaves the directory, and the model with it: see
    [is_component]).  The substring test [name in p.name] compares
    strings, whatever the volume. *)
Definition resolve_plugin (env : platform) (root : string)
    (bridge : option (gmap string dnode)) (name : string) : resolved :=
  if bool_decide (name ∈ [""; "."]) then
    match bridge with
    | Some _ => Resolved root
    | None => Raised FileNotFoundError
    end
  else
    let exact := bridge ≫= (λ d, find_entry env d name) in
    if path_exists (snd <$> exact)
    then Resolved (realpath root (resolved_name env name (default name (fst <$> exact)))
                     (snd <$> exact))
    else
      match bridge with
      | None => Raised FileNotFoundError
      | Some d =>
          let candidates :=
            filter (λ p, contains name p.1 = true) (map_to_list d) in
          match candidates with
          | [p] => Resolved (realpath root p.1 (Some p.2))
          | [] => NotFound
          | _ => Ambiguous (candidates.*1)
          end
      end.

(** ** The sync command *)

(** [dest.exists() or (hasattr(dest, "is_symlink") and dest.is_symlink())] *)
Definition present (e : option dnode) : bool :=
  path_exists e || path_is_symlink e.

(** [commands_dir.glob("*.md")]: the pattern is a star followed by literal
    characters, so a name matches when it ends with them; [pathlib] matches
    case-normalised names, does not hide names that start with a dot, and
    yields the matches in listing order. *)
Definition glob_md (env : platform) (path : snode) : list (string * snode) :=
  filter (λ e, endswith (normcase env e.1) ".md") (iterdir path).

(** The local variables of [cmd_sync], with the listings of the two
    destination directories and the lines printed so far. *)
Record sync_state := SyncState {
  plugins_listing : gmap string dnode;
  workflows_listing : gmap string dnode;
  stdout : list msg;
  valid_plugin_names : list string;
  valid_workflow_names : list string;
  plugins_linked : nat;
  plugins_skipped : nat;
  workflows_linked : nat;
  workflows_skipped : nat
}.

Definition print (m : msg) (s : sync_state) : sync_state :=
  {| plugins_listing := plugins_listing s;
     workflows_listing := workflows_listing s;
     stdout := stdout s ++ [m];
     valid_plugin_names := valid_plugin_names s;
     valid_workflow_names := valid_workflow_names s;
     plugins_linked := plugins_linked s;
     plugins_skipped := plugins_skipped s;
     workflows_linked := workflows_linked s;
     workflows_skipped := workflows_skipped s |}.

(** Body of [for cmd_file in commands_dir.glob("*.md")]. *)
Definition sync_workflow (env : platform) (mp_name plugin_name commands_dir : string)
    (s : sync_state) (cmd_file : string * snode) : sync_state :=
  let wf_name := "cb__" +:+ mp_name +:+ "__" +:+ plugin_name +:+ "__" +:+ cmd_file.1 in
  if present (found env (workflows_listing s) wf_name) then
    {| plugins_listing := plugins_listing s;
       workflows_listing := workflows_listing s;
       stdout := stdout s;
       valid_plugin_names := valid_plugin_names s;
       valid_workflow_names := valid_workflow_names s ++ [wf_name];
       plugins_linked := plugins_linked s;
       plugins_skipped := plugins_skipped s;
       workflows_linked := workflows_linked s;
       workflows_skipped := S (workflows_skipped s) |}
  else
    let '(ok, d, out) :=
      create_file_link env (commands_dir </> cmd_file.1) (resolution cmd_file.2)
        (get_global_workflows_dir env) wf_name (is_windows env)
        (workflows_listing s) in
    {| plugins_listing := plugins_listing s;
       workflows_listing := d;
       stdout := stdout s ++ MLinkWorkflow cmd_file.1 wf_name :: out;
       valid_plugin_names := valid_plugin_names s;
       valid_workflow_names := valid_workflow_names s ++ [wf_name];
       plugins_linked := plugins_linked s;
       plugins_skipped := plugins_skipped s;
       workflows_linked := if ok then S (workflows_linked s) else workflows_linked s;
       workflows_skipped := workflows_skipped s |}.

(** The plugin half of the body of [for plugin_dir in ...], up to the
    workflow comment. *)
Definition sync_plugin_link (env : platform) (mp_name plugin_base : string)
    (s : sync_state) (plugin_dir : string * snode) : sync_state :=
  let bridge_name := mp_name +:+ "__" +:+ plugin_dir.1 in
  if present (found env (plugins_listing s) bridge_name) then
    {| plugins_listing := plugins_listing s;
       workflows_listing := workflows_listing s;
       stdout := stdout s;
       valid_plugin_names := valid_plugin_names s ++ [bridge_name];
       valid_workflow_names := valid_workflow_names s;
       plugins_linked := plugins_linked s;
       plugins_skipped := S (plugins_skipped s);
       workflows_linked := workflows_linked s;
       workflows_skipped := workflows_skipped s |}
  else
    let '(ok, d, out) :=
      create_link env (plugin_base </> plugin_dir.1) (resolution plugin_dir.2)
        (get_bridge_plugins_dir env) bridge_name (is_windows env)
        (plugins_listing s) in
    {| plugins_listing := d;
       workflows_listing := workflows_listing s;
       stdout := stdout s ++ MLinkPlugin plugin_dir.1 :: out;
       valid_plugin_names := valid_plugin_names s ++ [bridge_name];
       valid_workflow_names := valid_workflow_names s;
       plugins_linked := if ok then S (plugins_linked s) else plugins_linked s;
       plugins_skipped := plugins_skipped s;
       workflows_linked := workflows_linked s;
       workflows_skipped := workflows_skipped s |}.

(** Body of [for plugin_dir in sorted(plugin_base.iterdir())]. *)
Definition sync_plugin (env : platform) (mp_name plugin_base : string)
    (s : sync_state) (plugin_dir : string * snode) : sync_state :=
  if negb (snode_is_dir plugin_dir.2) then s
  else if negb (is_plugin_dir plugin_dir.1 plugin_dir.2) then s
  else
    let s := sync_plugin_link env mp_name plugin_base s plugin_dir in
    let commands_dir := sub plugin_dir.2 "commands" in
    if snode_exists commands_dir && snode_is_dir commands_dir then
      foldl (sync_workflow env mp_name plugin_dir.1
               (plugin_base </> plugin_dir.1 </> "commands"))
        s (glob_md env commands_dir)
    else s.

(** [plugin_base = mp_dir / "plugins"], or [mp_dir] when that is not a
    directory: its path and its node. *)
Definition plugin_base_of (env : platform) (mp_dir : string * snode) : string * snode :=
  let mp_path := get_claude_marketplace env </> mp_dir.1 in
  if snode_is_dir (sub mp_dir.2 "plugins")
  then (mp_path </> "plugins", sub mp_dir.2 "plugins")
  else (mp_path, mp_dir.2).

(** Body of [for mp_dir in sorted(marketplace.iterdir())]. *)
Definition sync_marketplace (env : platform) (s : sync_state)
    (mp_dir : string * snode) : sync_state :=
  if negb (snode_is_dir mp_dir.2) || startswith mp_dir.1 "." then s
  else
    let mp_name := mp_dir.1 in
    let s := print (MMarketplace mp_name) s in
    let plugin_base := plugin_base_of env mp_dir in
    foldl (sync_plugin env mp_name plugin_base.1) s
      (sorted env (iterdir plugin_base.2)).

(** Bodies of the two cleanup loops; the state is the listing, the output
    and the removal counter. *)
Definition cleanup_plugin (env : platform) (valid_plugin_names : list string)
    (acc : gmap string dnode * list msg * nat) (existing : string * dnode)
    : gmap string dnode * list msg * nat :=
  let '(d, out, plugins_removed) := acc in
  if negb (bool_decide (existing.1 ∈ valid_plugin_names)) then
    let '(ok, d', out') :=
      remove_link env (get_bridge_plugins_dir env) existing.1 (is_windows env) d in
    (d', out ++ MRemovePlugin existing.1 :: out',
     if ok then S plugins_removed else plugins_removed)
  else acc.

Definition cleanup_workflow (env : platform) (valid_workflow_names : list string)
    (acc : gmap string dnode * list msg * nat) (existing : string * dnode)
    : gmap string dnode * list msg * nat :=
  let '(d, out, workflows_removed) := acc in
  if startswith existing.1 "cb__"
     && negb (bool_decide (existing.1 ∈ valid_workflow_names)) then
    let '(ok, d', out') :=
      remove_link env (get_global_workflows_dir env) existing.1 (is_windows env) d in
    (d', out ++ MRemoveWorkflow existing.1 :: out',
     if ok then S workflows_removed else workflows_removed)
  else acc.

(** [dir.mkdir(parents=True, exist_ok=True)] *)
Definition mkdir (dir : option (gmap string dnode)) : gmap string dnode :=
  default ∅ dir.

(** [cmd_sync]: the file system afterwards and the lines printed.  The
    counters are what the last line, [MDone], shows. *)
Definition cmd_sync (env : platform) (fs : filesystem) : filesystem * list msg :=
  match marketplace fs with
  | None => (fs, [MBanner; MNoMarketplace])
  | Some m =>
      let s0 :=
        {| plugins_listing := mkdir (bridge_plugins fs);
           workflows_listing := mkdir (global_workflows fs);
           stdout := [MBanner];
           valid_plugin_names := [];
           valid_workflow_names := [];
           plugins_linked := 0;
           plugins_skipped := 0;
           workflows_linked := 0;
           workflows_skipped := 0 |} in
      let s := foldl (sync_marketplace env) s0 (sorted env m) in
      let '(bp, out1, plugins_removed) :=
        foldl (cleanup_plugin env (valid_plugin_names s))
          (plugins_listing s, stdout s, 0)
          (sorted env (map_to_list (plugins_listing s))) in
      let '(gw, out2, workflows_removed) :=
        foldl (cleanup_workflow env (valid_workflow_names s))
          (workflows_listing s, out1, 0)
          (sorted env (map_to_list (workflows_listing s))) in
      ({| marketplace := Some m;
          bridge_plugins := Some bp;
          global_workflows := Some gw |},
       out2 ++ [MDone
                  {| bridged := length (valid_plugin_names s);
                     new := plugins_linked s;
                     existing := plugins_skipped s;
                     removed := plugins_removed |}
                  {| bridged := length (valid_workflow_names s);
                     new := workflows_linked s;
                     existing := workflows_skipped s;
                     removed := workflows_removed |}])
  end.

(** The counters of the summary line, when the run got that far. *)
Definition summary (out : list msg) : option (counts * counts) :=
  match last out with
  | Some (MDone p w) => Some (p, w)
  | _ => None
  end.

Definition is_failure (m : msg) : bool :=
  match m with
  | MFailLinkDir _ | MFailLinkFile _ | MFailRemove _ => true
  | _ => false
  end.

Definition is_link_failure (m : msg) : bool :=
  match m with
  | MFailLinkDir _ | MFailLinkFile _ => true
  | _ => false
  end.

Definition is_remove_failure (m : msg) : bool :=
  match m with
  | MFailRemove _ => true
  | _ => false
  end.

Definition is_dir_link_failure (m : msg) : bool :=
  match m with MFailLinkDir _ => true | _ => false end.

Definition is_file_link_failure (m : msg) : bool :=
  match m with MFailLinkFile _ => true | _ => false end.

(** How many of the printed lines satisfy [p]. *)
Definition count_msgs (p : msg → bool) (out : list msg) : nat :=
  length (filter (λ m, p m) out).

(** ** Scan and reconciliation, taken apart

    The specification describes [cmd_sync] as a scan that yields two
    candidate sequences, followed by one reconciliation per destination.
    The definitions below follow that description; [cmd_sync_reconcile]
    shows that the interleaved loops of the script compute the same thing. *)

(** A candidate: the destination name, the path linked to and what that path
    resolves to. *)
Record candidate := Candidate {
  c_name : string;
  c_source : string;
  c_res : option kind
}.

(** The plugin directories of a marketplace entry, in the order visited. *)
Definition plugins_of (env : platform) (mp_dir : string * snode)
    : list (string * snode) :=
  if negb (snode_is_dir mp_dir.2) || startswith mp_dir.1 "." then []
  else
    filter (λ plugin_dir, snode_is_dir plugin_dir.2
                          && is_plugin_dir plugin_dir.1 plugin_dir.2)
      (sorted env (iterdir (plugin_base_of env mp_dir).2)).

(** The command files of a plugin directory, in the order visited. *)
Definition commands_of (env : platform) (plugin_dir : string * snode)
    : list (string * snode) :=
  let commands_dir := sub plugin_dir.2 "commands" in
  if snode_exists commands_dir && snode_is_dir commands_dir
  then glob_md env commands_dir else [].

Definition plugin_candidate (env : platform) (mp_dir plugin_dir : string * snode)
    : candidate :=
  {| c_name := mp_dir.1 +:+ "__" +:+ plugin_dir.1;
     c_source := (plugin_base_of env mp_dir).1 </> plugin_dir.1;
     c_res := resolution plugin_dir.2 |}.

Definition workflow_candidate (env : platform)
    (mp_dir plugin_dir cmd_file : string * snode) : candidate :=
  {| c_name := "cb__" +:+ mp_dir.1 +:+ "__" +:+ plugin_dir.1 +:+ "__" +:+ cmd_file.1;
     c_source := (plugin_base_of env mp_dir).1 </> plugin_dir.1 </> "commands"
                 </> cmd_file.1;
     c_res := resolution cmd_file.2 |}.

Definition plugin_candidates (env : platform) (m : list (string * snode))
    : list candidate :=
  mp_dir ← sorted env m;
  plugin_dir ← plugins_of env mp_dir;
  [plugin_candidate env mp_dir plugin_dir].

Definition workflow_candidates (env : platform) (m : list (string * snode))
    : list candidate :=
  mp_dir ← sorted env m;
  plugin_dir ← plugins_of env mp_dir;
  cmd_file ← commands_of env plugin_dir;
  [workflow_candidate env mp_dir plugin_dir cmd_file].

(** The two destinations differ in the link they hold, in their directory
    and in which of their entries the cleanup may touch. *)
Inductive link_type := DirectoryLink | FileLink.

Definition make_link (env : platform) (lt : link_type) :=
  match lt with
  | DirectoryLink => create_link env
  | FileLink => create_file_link env
  end.

Definition dest_root (env : platform) (lt : link_type) : string :=
  match lt with
  | DirectoryLink => get_bridge_plugins_dir env
  | FileLink => get_global_workflows_dir env
  end.

Definition owned (lt : link_type) (name : string) : bool :=
  match lt with
  | DirectoryLink => true
  | FileLink => startswith name "cb__"
  end.

(** One destination's share of [sync_state]; [t_failed] counts the failure
    lines of its link primitive. *)
Record tally := Tally {
  t_listing : gmap string dnode;
  t_valid : list string;
  t_linked : nat;
  t_skipped : nat;
  t_failed : nat
}.

Definition link_step (env : platform) (lt : link_type) (t : tally)
    (c : candidate) : tally :=
  if present (found env (t_listing t) (c_name c)) then
    {| t_listing := t_listing t;
       t_valid := t_valid t ++ [c_name c];
       t_linked := t_linked t;
       t_skipped := S (t_skipped t);
       t_failed := t_failed t |}
  else
    let '(ok, d, _) :=
      make_link env lt (c_source c) (c_res c) (dest_root env lt) (c_name c)
        (is_windows env) (t_listing t) in
    {| t_listing := d;
       t_valid := t_valid t ++ [c_name c];
       t_linked := if ok then S (t_linked t) else t_linked t;
       t_skipped := t_skipped t;
       t_failed := if ok then t_failed t else S (t_failed t) |}.

(** The state of a cleanup loop: listing, entries removed, removals that
    failed. *)
Definition cleanup_step (env : platform) (lt : link_type) (valid : list string)
    (acc : gmap string dnode * nat * nat) (existing : string * dnode)
    : gmap string dnode * nat * nat :=
  let '(d, removed, failed) := acc in
  if owned lt existing.1 && negb (bool_decide (existing.1 ∈ valid)) then
    let '(ok, d', _) :=
      remove_link env (dest_root env lt) existing.1 (is_windows env) d in
    (d', if ok then S removed else removed, if ok then failed else S failed)
  else acc.

Record outcome := Outcome {
  o_listing : gmap string dnode;
  o_counts : counts;
  o_link_failures : nat;
  o_remove_failures : nat
}.

Definition reconcile (env : platform) (lt : link_type) (cands : list candidate)
    (d : gmap string dnode) : outcome :=
  let t := foldl (link_step env lt) (Tally d [] 0 0 0) cands in
  let '(d', removed, failed) :=
    foldl (cleanup_step env lt (t_valid t)) (t_listing t, 0, 0)
      (sorted env (map_to_list (t_listing t))) in
  {| o_listing := d';
     o_counts := {| bridged := length (t_valid t);
                    new := t_linked t;
                    existing := t_skipped t;
                    removed := removed |};
     o_link_failures := t_failed t;
     o_remove_failures := failed |}.

(** The two projections of [sync_state]. *)
Definition plugins_tally (s : sync_state) : tally :=
  {| t_listing := plugins_listing s;
     t_valid := valid_plugin_names s;
     t_linked := plugins_linked s;
     t_skipped := plugins_skipped s;
     t_failed := count_msgs is_dir_link_failure (stdout s) |}.

Definition workflows_tally (s : sync_state) : tally :=
  {| t_listing := workflows_listing s;
     t_valid := valid_workflow_names s;
     t_linked := workflows_linked s;
     t_skipped := workflows_skipped s;
     t_failed := count_msgs is_file_link_failure (stdout s) |}.

(** What a link primitive and [remove_link] do to the entry they are aimed
    at, faults included. *)
Definition link_effect (env : platform) (lt : link_type) (c : candidate)
    (e : option dnode) : exn + option dnode :=
  let dest := dest_root env lt </> c_name c in
  if is_windows env then
    let flag := match lt with DirectoryLink => FlagJ | FileLink => FlagH end in
    match fault env (sys_mklink flag dest) with
    | Some x => inl x
    | None => mklink_entry flag (c_source c) (c_res c) e
    end
  else
    match fault env (sys_symlink dest) with
    | Some x => inl x
    | None => symlink_entry (c_source c) (c_res c) e
    end.

Definition remove_effect (env : platform) (root name : string)
    (e : option dnode) : exn + option dnode :=
  let use_rmdir :=
    if is_windows env then path_is_dir e
    else negb (path_is_symlink e || path_is_file e) in
  if use_rmdir then
    match fault env (sys_rmdir (root </> name)) with
    | Some x => inl x
    | None => rmdir_entry (is_windows env) e
    end
  else
    match fault env (sys_remove (root </> name)) with
    | Some x => inl x
    | None => remove_entry (is_windows env) e
    end.

Definition succeeds {A} (r : exn + A) : bool :=
  match r with inr _ => true | inl _ => false end.

(** The cleanup of destination [lt] tries to remove the entry called [name],
    and removes the entry [e] of that name. *)
Definition obsolete (lt : link_type) (valid : list string) (name : string) : bool :=
  owned lt name && negb (bool_decide (name ∈ valid)).

Definition to_remove (env : platform) (lt : link_type) (valid : list string)
    (name : string) (e : option dnode) : bool :=
  obsolete lt valid name && succeeds (remove_effect env (dest_root env lt) name e).


(** A candidate is settled on an entry that passes the presence test or on
    which its link primitive fails. *)
Definition settled (env : platform) (lt : link_type) (c : candidate)
    (e : option dnode) : Prop :=
  present e = true ∨ succeeds (link_effect env lt c e) = false.

(** What the link primitive creates for [c] passes the presence test. *)
Definition visible (env : platform) (lt : link_type) (c : candidate) : Prop :=
  ∀ o, link_effect env lt c None = inr o → present o = true.

(** The listing of a destination after the link loop. *)
Definition linked_listing (env : platform) (lt : link_type)
    (cands : list candidate) (d : gmap string dnode) : gmap string dnode :=
  t_listing (foldl (link_step env lt) (Tally d [] 0 0 0) cands).

(** The state of a cleanup loop of [cmd_sync], seen as one of [cleanup_step]. *)
Definition cleanup_view (acc : gmap string dnode * list msg * nat)
    : gmap string dnode * nat * nat :=
  (acc.1.1, acc.2, count_msgs is_remove_failure acc.1.2).

(** ** Statements about the script *)

(** A plugin source: a directory [<marketplace>/[plugins/]<plugin-name>]
    that satisfies the classifier, where a marketplace entry is a
    subdirectory of the root whose name does not start with a dot and the
    [plugins] level is used whenever it is a directory. *)
Definition is_plugin_source (m : list (string * snode))
    (mp_name plugin_name : string) : Prop :=
  ∃ mp_node plugin_node,
    (mp_name, mp_node) ∈ m
    ∧ snode_is_dir mp_node = true
    ∧ startswith mp_name "." = false
    ∧ (plugin_name, plugin_node)
        ∈ iterdir (if snode_is_dir (sub mp_node "plugins")
                   then sub mp_node "plugins" else mp_node)
    ∧ snode_is_dir plugin_node = true
    ∧ is_plugin_dir plugin_name plugin_node = true.

(** The same platform on a volume that tells all names apart. *)
Definition case_sensitive (env : platform) : platform :=
  {| is_windows := is_windows env;
     normcase := normcase env;
     casefold := id;
     home := home env;
     fault := fault env |}.

(** The volume tells apart the names that meet in a destination directory:
    the names of the candidates and the names of the entries it holds.
    Always so on a case-sensitive volume; on another one it fails when, for
    instance, an entry is left over from before a plugin directory was
    renamed from [Demo] to [demo]. *)
Definition names_told_apart (env : platform) (cands : list candidate)
    (d : gmap string dnode) : Prop :=
  ∀ a b,
    a ∈ c_name <$> cands ∨ is_Some (d !! a) →
    b ∈ c_name <$> cands ∨ is_Some (d !! b) →
    casefold env a = casefold env b → a = b.

(** The names [resolve_plugin] is modelled for: one path component, so that
    [bridge_plugins / name] is an entry of the directory (not the directory
    itself, its parent, a nested or an absolute path). *)
Definition is_component (name : string) : bool :=
  negb (bool_decide (name ∈ [""; "."; ".."]))
  && negb (contains "/" name) && negb (contains "\" name)
  && negb (contains ":" name).

(** The entries [remove_link] is meant for: links, plain files and empty
    directories (junctions on Windows only). *)
Definition removable_kind (env : platform) (n : dnode) : bool :=
  match n with
  | DFile | DDir [] | DLink Symbolic _ _ => true
  | DLink Junction _ _ => is_windows env
  | DDir (_ :: _) => false
  end.

(** The entry [name] of the workflows directory, if any. *)
Definition workflow_entry (fs : filesystem) (name : string) : option dnode :=
  global_workflows fs ≫= (λ d, d !! name).

(** A sequence of [sync] runs, each on its own platform conditions and on
    whatever the marketplace has become in the meantime. *)
Definition sync_after (fs : filesystem)
    (run : platform * option (list (string * snode))) : filesystem :=
  (cmd_sync run.1 {| marketplace := run.2;
                     bridge_plugins := bridge_plugins fs;
                     global_workflows := global_workflows fs |}).1.

Definition sync_runs (runs : list (platform * option (list (string * snode))))
    (fs : filesystem) : filesystem :=
  foldl sync_after fs runs.

(** Idempotence as the specification words it: on the second of two runs
    nothing is created or removed, every candidate is found in place and the
    names in both destinations are what they were. *)
Definition sync_idempotent (env : platform) (fs : filesystem) : Prop :=
  let fs1 := (cmd_sync env fs).1 in
  let run2 := cmd_sync env fs1 in
  ∃ p w, summary run2.2 = Some (p, w)
    ∧ new p = 0 ∧ removed p = 0 ∧ new w = 0 ∧ removed w = 0
    ∧ existing p = bridged p ∧ existing w = bridged w
    ∧ dom <$> bridge_plugins run2.1 = dom <$> bridge_plugins fs1
    ∧ dom <$> global_workflows run2.1 = dom <$> global_workflows fs1.

(** Cleanup scoping as the specification words it: in the workflows
    directory an entry without the ownership prefix stays, and an entry with
    the prefix whose name is not a current workflow id is gone after the
    run. *)
Definition cleanup_scoped (env : platform) (fs : filesystem)
    (m : list (string * snode)) : Prop :=
  ∀ name,
    (startswith name "cb__" = false →
     workflow_entry (cmd_sync env fs).1 name = workflow_entry fs name)
    ∧ (startswith name "cb__" = true →
       name ∉ c_name <$> workflow_candidates env m →
       workflow_entry (cmd_sync env fs).1 name = None).

(** ** Concrete platforms and file systems *)

(** Lower-casing of the letters [A]..[Z], the folding of the
    case-insensitive volumes below. *)
Definition lower_ascii (c : Ascii.ascii) : Ascii.ascii :=
  let n := Ascii.nat_of_ascii c in
  if (65 <=? n)%nat && (n <=? 90)%nat then Ascii.ascii_of_nat (n + 32) else c.

Fixpoint lower (s : string) : string :=
  match s with
  | EmptyString => EmptyString
  | String c s' => String (lower_ascii c) (lower s')
  end.

(** Linux with a case-sensitive volume. *)
Definition posix : platform :=
  {| is_windows := false; normcase := id; casefold := id; home := "/home/u";
     fault := λ _, None |}.

(** Windows with an NTFS volume. *)
Definition windows : platform :=
  {| is_windows := true; normcase := id; casefold := lower;
     home := "C:/Users/u"; fault := λ _, None |}.

(** macOS with an APFS volume as it is formatted by default. *)
Definition macos : platform :=
  {| is_windows := false; normcase := id; casefold := lower;
     home := "/Users/u"; fault := λ _, None |}.

(** A POSIX system on which the two destination directories exist but are
    not writable: every [symlink] call is refused. *)
Definition posix_readonly : platform :=
  {| is_windows := false; normcase := id; casefold := id; home := "/home/u";
     fault := λ call, match call with
                      | sys_symlink _ => Some PermissionError
                      | _ => None
                      end |}.

(** The end-to-end scenario: marketplace [mkt1] with the plugin [demo],
    holding [plugin.json] and [commands/go.md]. *)
Definition demo_market : list (string * snode) :=
  [("mkt1", SDir [("demo", SDir [("plugin.json", SFile);
                                 ("commands", SDir [("go.md", SFile)])])])].

Definition demo_fs : filesystem :=
  {| marketplace := Some demo_market;
     bridge_plugins := None;
     global_workflows := None |}.

Definition readonly_fs : filesystem :=
  {| marketplace := Some demo_market;
     bridge_plugins := Some ∅;
     global_workflows := Some ∅ |}.

(** Windows: the junction of an earlier run points to where the plugin used
    to be; the marketplace has since gained a [plugins] level. *)
Definition moved_fs : filesystem :=
  {| marketplace :=
       Some [("mkt1", SDir [("plugins",
                             SDir [("demo", SDir [("plugin.json", SFile)])])])];
     bridge_plugins :=
       Some {[ "mkt1__demo" :=
                 DLink Junction "C:/Users/u/.claude/plugins/marketplaces/mkt1/demo"
                   None ]};
     global_workflows := Some ∅ |}.

(** A commands directory that the operating system lists as [b.md],
    [a.md]. *)
Definition unsorted_market : list (string * snode) :=
  [("mkt", SDir [("demo", SDir [("plugin.json", SFile);
                                ("commands", SDir [("b.md", SFile);
                                                   ("a.md", SFile)])])])].

Definition unsorted_fs : filesystem :=
  {| marketplace := Some unsorted_market;
     bridge_plugins := None;
     global_workflows := None |}.

(** A workflows directory holding a foreign file and a real, non-empty
    directory with the ownership prefix; the marketplace is empty. *)
Definition stale_workflows : gmap string dnode :=
  {[ "notes.md" := DFile; "cb__old" := DDir ["keep.txt"] ]}.

Definition stale_fs : filesystem :=
  {| marketplace := Some [];
     bridge_plugins := Some ∅;
     global_workflows := Some stale_workflows |}.

(** Links left by an earlier run, and no marketplace any more. *)
Definition orphaned_fs : filesystem :=
  {| marketplace := None;
     bridge_plugins :=
       Some {[ "mkt1__demo" := DLink Symbolic "/gone/demo" None ]};
     global_workflows :=
       Some {[ "cb__mkt1__demo__go.md" := DLink Symbolic "/gone/go.md" None ]} |}.

(** A bridge directory with a dangling link called [x] next to [alpha__x]. *)
Definition dangling_bridge : gmap string dnode :=
  {[ "x" := DLink Symbolic "/gone/x" None;
     "alpha__x" := DLink Symbolic "/src/alpha/x" (Some KDir) ]}.

(** A bridge directory with the entries [alpha__x] and [beta__x]. *)
Definition two_x : gmap string dnode :=
  {[ "alpha__x" := DLink Symbolic "/src/alpha/x" (Some KDir);
     "beta__x" := DLink Symbolic "/src/beta/x" (Some KDir) ]}.

(** macOS: the plugin directory [Demo] of the marketplace [Mkt] was linked
    by an earlier run and has since been renamed to [demo]. *)
Definition renamed_market : list (string * snode) :=
  [("Mkt", SDir [("demo", SDir [("plugin.json", SFile)])])].

Definition renamed_fs : filesystem :=
  {| marketplace := Some renamed_market;
     bridge_plugins :=
       Some {[ "Mkt__Demo" :=
                 DLink Symbolic "/Users/u/.claude/plugins/marketplaces/Mkt/Demo"
                   (Some KDir) ]};
     global_workflows := Some ∅ |}.

(** The marketplace of [demo_market] with destinations that hold a stale
    link each, and a foreign file among the workflows. *)
Definition stale_demo_fs : filesystem :=
  {| marketplace := Some demo_market;
     bridge_plugins := Some {[ "mkt1__old" := DLink Symbolic "/gone/old" None ]};
     global_workflows :=
       Some {[ "notes.md" := DFile;
               "cb__mkt1__old__go.md" := DLink Symbolic "/gone/go.md" None ]} |}.

(** ** Further statements about the script *)

(** The same platform with other outside faults. *)
Definition with_fault (env : platform) (f : syscall → option exn) : platform :=
  {| is_windows := is_windows env;
     normcase := normcase env;
     casefold := casefold env;
     home := home env;
     fault := f |}.

(** A workflow source: a file [<plugin source>/commands/<file>] whose name
    matches [*.md], the [commands] level being a directory. *)
Definition is_workflow_source (env : platform) (m : list (string * snode))
    (mp_name plugin_name file : string) : Prop :=
  ∃ mp_node plugin_node file_node,
    (mp_name, mp_node) ∈ m
    ∧ snode_is_dir mp_node = true
    ∧ startswith mp_name "." = false
    ∧ (plugin_name, plugin_node)
        ∈ iterdir (if snode_is_dir (sub mp_node "plugins")
                   then sub mp_node "plugins" else mp_node)
    ∧ snode_is_dir plugin_node = true
    ∧ is_plugin_dir plugin_name plugin_node = true
    ∧ snode_is_dir (sub plugin_node "commands") = true
    ∧ (file, file_node) ∈ iterdir (sub plugin_node "commands")
    ∧ endswith (normcase env file) ".md" = true.

(** The path of the plugin directory [plugin_name] of a marketplace entry. *)
Definition plugin_path (env : platform) (mp_dir : string * snode)
    (plugin_name : string) : string :=
  (plugin_base_of env mp_dir).1 </> plugin_name.

(** A marketplace name after which the separator of a bridge name can be
    found again: it holds no double underscore and does not end in an
    underscore. *)
Definition separable (mp_name : string) : bool :=
  negb (contains "__" mp_name) && negb (endswith mp_name "_").

(** Two marketplaces with one plugin each, as the system may list them. *)
Definition two_markets : list (string * snode) :=
  [("mkt1", SDir [("demo", SDir [("plugin.json", SFile)])]);
   ("mkt2", SDir [("tool", SDir [("skills", SDir [])])])].

Definition with_marketplace (fs : filesystem) (m : list (string * snode))
    : filesystem :=
  {| marketplace := Some m;
     bridge_plugins := bridge_plugins fs;
     global_workflows := global_workflows fs |}.

(** ** The list command *)

(** The lines [cmd_list] prints. *)
Inductive list_line :=
  | LNotBridged
  | LNoPlugins
  | LHeader (n : nat)
  | LPlugin (name tag : string).

(** The entries looked for below a bridged plugin and the words shown for
    them, in the order of the [if] statements. *)
Definition RESOURCES : list (string * string) :=
  [("skills", "skills"); ("hooks", "hooks"); ("agents", "agents");
   ("commands", "commands"); ("README.md", "readme")].

(** [", ".join(resources) if resources else "minimal"] *)
Definition tag_of (resources : list string) : string :=
  match resources with
  | [] => "minimal"
  | _ => String.concat ", " resources
  end.

(** [cmd_list].  What exists below an entry lies behind the link, outside
    the bridge-plugins directory: [below name r] stands for
    [(bridge_plugins / name / r).exists()]. *)
Definition cmd_list (env : platform) (below : string → string → bool)
    (bridge : option (gmap string dnode)) : list list_line :=
  match bridge with
  | None => [LNotBridged]
  | Some d =>
      let plugins :=
        sorted env (filter (λ p, path_is_dir (Some p.2) = true) (map_to_list d)) in
      match plugins with
      | [] => [LNoPlugins]
      | _ =>
          LHeader (length plugins)
          :: ((λ p, LPlugin p.1
                      (tag_of (filter (λ r, below p.1 r.1 = true) RESOURCES).*2))
              <$> plugins)
      end
  end.

(** * Proofs *)

Local Arguments cleanup_step : simpl never.
Local Arguments link_step : simpl never.
Local Arguments cleanup_plugin : simpl never.
Local Arguments cleanup_workflow : simpl never.
Local Arguments sync_marketplace : simpl never.

(** * Strings *)

Lemma string_app_cons (a : Ascii.ascii) (s t : string) :
  String a s +:+ t = String a (s +:+ t).
Proof. reflexivity. Qed.

Lemma string_app_nil (t : string) : "" +:+ t = t.
Proof. reflexivity. Qed.

Lemma prefix_spec (p s : string) :
  String.prefix p s = true ↔ ∃ t, s = p +:+ t.
Proof.
  revert s. induction p as [|a p IH]; intros s.
  - split; [intros _; by exists s|]. by destruct s.
  - destruct s as [|b s]; simpl.
    + split; [done|]. intros [t Ht]. by rewrite string_app_cons in Ht.
    + destruct (Ascii.ascii_dec a b) as [->|Hab].
      * rewrite IH. split; intros [t Ht]; exists t.
        -- by rewrite string_app_cons, Ht.
        -- rewrite string_app_cons in Ht. by injection Ht.
      * split; [done|]. intros [t Ht]. rewrite string_app_cons in Ht.
        injection Ht as -> _. done.
Qed.

Lemma startswith_app (p t : string) : startswith (p +:+ t) p = true.
Proof. unfold startswith. apply prefix_spec. by exists t. Qed.

Lemma string_app_assoc (a b c : string) : (a +:+ b) +:+ c = a +:+ b +:+ c.
Proof.
  induction a as [|x a IH]; [done|].
  by rewrite !string_app_cons, IH.
Qed.

Lemma string_app_nil_r (s : string) : s +:+ "" = s.
Proof.
  induction s as [|x s IH]; [done|]. by rewrite string_app_cons, IH.
Qed.

Lemma contains_nil (q : string) : contains q "" = String.prefix q "" || false.
Proof. reflexivity. Qed.

Lemma contains_cons (q : string) (c : Ascii.ascii) (s : string) :
  contains q (String c s) = String.prefix q (String c s) || contains q s.
Proof. reflexivity. Qed.

Lemma contains_spec (q s : string) :
  contains q s = true ↔ ∃ a b, s = a +:+ q +:+ b.
Proof.
  induction s as [|c s IH].
  - rewrite contains_nil, orb_false_r, prefix_spec. split.
    + intros [t Ht]. by exists "", t.
    + intros [a [b Hab]]. destruct a; [by exists b|done].
  - rewrite contains_cons, orb_true_iff, IH, prefix_spec. split.
    + intros [[t Ht]|[a [b Hab]]].
      * by exists "", t.
      * exists (String c a), b. by rewrite string_app_cons, Hab.
    + intros [a [b Hab]]. destruct a as [|c' a].
      * left. by exists b.
      * right. rewrite string_app_cons in Hab. injection Hab as -> Hs.
        by exists a, b.
Qed.

Lemma contains_refl (s : string) : contains s s = true.
Proof.
  apply contains_spec. exists "", "". by rewrite string_app_nil, string_app_nil_r.
Qed.

Lemma rev_app_spec (s t : string) :
  String.rev_app s t = String.rev s +:+ t.
Proof.
  unfold String.rev. revert t. induction s as [|a s IH]; intros t; [done|].
  simpl. rewrite (IH (String a "")), (IH (String a t)).
  by rewrite string_app_assoc.
Qed.

Lemma rev_cons (a : Ascii.ascii) (s : string) :
  String.rev (String a s) = String.rev s +:+ String a "".
Proof. unfold String.rev at 1. simpl. apply rev_app_spec. Qed.

Lemma rev_app_distr (a b : string) :
  String.rev (a +:+ b) = String.rev b +:+ String.rev a.
Proof.
  induction a as [|x a IH].
  - by rewrite string_app_nil, string_app_nil_r.
  - by rewrite string_app_cons, !rev_cons, IH, string_app_assoc.
Qed.

Lemma rev_involutive (s : string) : String.rev (String.rev s) = s.
Proof.
  induction s as [|x s IH]; [done|].
  by rewrite rev_cons, rev_app_distr, IH.
Qed.

Lemma endswith_spec (s suf : string) :
  endswith s suf = true ↔ ∃ a, s = a +:+ suf.
Proof.
  unfold endswith. rewrite prefix_spec. split.
  - intros [t Ht]. exists (String.rev t).
    by rewrite <-(rev_involutive s), Ht, rev_app_distr, rev_involutive.
  - intros [a ->]. exists (String.rev a). apply rev_app_distr.
Qed.

(** * Sorting *)

Global Instance path_le_total env {A} : Total (@path_le env A).
Proof. intros a b. unfold path_le. apply String.le_total. Qed.

Global Instance path_le_trans env {A} : Transitive (@path_le env A).
Proof. intros a b c. unfold path_le. apply transitivity. Qed.

Lemma sorted_perm env {A} (l : list (string * A)) : sorted env l ≡ₚ l.
Proof. apply merge_sort_Permutation. Qed.

Lemma sorted_Sorted env {A} (l : list (string * A)) :
  Sorted (path_le env) (sorted env l).
Proof. apply (Sorted_merge_sort (path_le env)). Qed.

Lemma elem_of_sorted env {A} (l : list (string * A)) x :
  x ∈ sorted env l ↔ x ∈ l.
Proof. by rewrite sorted_perm. Qed.

Lemma sorted_listing_NoDup env (d : gmap string dnode) :
  NoDup (sorted env (map_to_list d)).*1.
Proof. rewrite sorted_perm. apply NoDup_fst_map_to_list. Qed.

Lemma elem_of_sorted_listing env (d : gmap string dnode) n :
  n ∈ (sorted env (map_to_list d)).*1 ↔ is_Some (d !! n).
Proof.
  rewrite sorted_perm, list_elem_of_fmap. split.
  - intros [[k x] [-> Hx]]. apply elem_of_map_to_list in Hx. by exists x.
  - intros [x Hx]. exists (n, x). split; [done|]. by apply elem_of_map_to_list.
Qed.

(** * What the volume finds under a name *)

Lemma find_entry_exact env d name x :
  d !! name = Some x → find_entry env d name = Some (name, x).
Proof. intros Hx. unfold find_entry. by rewrite Hx. Qed.

Lemma found_exact env d name x :
  d !! name = Some x → found env d name = Some x.
Proof. intros Hx. unfold found. by rewrite (find_entry_exact _ _ _ x). Qed.

Lemma find_entry_Some env d name k x :
  find_entry env d name = Some (k, x) →
  d !! k = Some x ∧ casefold env k = casefold env name.
Proof.
  unfold find_entry. destruct (d !! name) as [y|] eqn:Hy.
  - intros [= <- <-]. done.
  - intros Hh. apply head_Some_elem_of, list_elem_of_filter in Hh as [Hc Hin].
    by apply elem_of_map_to_list in Hin.
Qed.

Lemma found_Some env d name x :
  found env d name = Some x →
  ∃ k, d !! k = Some x ∧ casefold env k = casefold env name.
Proof.
  unfold found. destruct (find_entry env d name) as [[k y]|] eqn:Hf; [|done].
  intros [= <-]. exists k. by eapply find_entry_Some.
Qed.

Lemma found_None env d name :
  found env d name = None ↔
  ∀ k, is_Some (d !! k) → casefold env k ≠ casefold env name.
Proof.
  unfold found, find_entry. split.
  - destruct (d !! name) as [y|] eqn:Hy; [done|].
    destruct (filter _ _) as [|p l] eqn:Hl; [|done]. intros _ k [x Hx] Hk.
    assert ((k, x) ∈ filter (λ p, casefold env p.1 = casefold env name)
                       (map_to_list d)) as Hin.
    { apply list_elem_of_filter. split; [done|]. by apply elem_of_map_to_list. }
    rewrite Hl in Hin. by apply elem_of_nil in Hin.
  - intros Hno. destruct (d !! name) as [y|] eqn:Hy.
    { by destruct (Hno name). }
    destruct (filter _ _) as [|[k x] l] eqn:Hl; [done|]. exfalso.
    assert ((k, x) ∈ filter (λ p, casefold env p.1 = casefold env name)
                       (map_to_list d)) as Hin by (rewrite Hl; left).
    apply list_elem_of_filter in Hin as [Hc Hin].
    apply elem_of_map_to_list in Hin. by apply (Hno k).
Qed.

Lemma found_None_lookup env d name : found env d name = None → d !! name = None.
Proof.
  intros Hn. destruct (d !! name) as [x|] eqn:Hx; [|done].
  by rewrite (found_exact _ _ _ x) in Hn.
Qed.

(** Where no entry is another spelling of [name], the volume finds what is
    stored under [name]. *)
Lemma find_entry_told_apart env d name :
  (∀ k, is_Some (d !! k) → casefold env k = casefold env name → k = name) →
  find_entry env d name = (λ x, (name, x)) <$> d !! name.
Proof.
  intros Hk. destruct (d !! name) as [x|] eqn:Hx.
  { by rewrite (find_entry_exact _ _ _ x). }
  destruct (find_entry env d name) as [[k y]|] eqn:Hf; [|done].
  apply find_entry_Some in Hf as [Hy Hc].
  rewrite (Hk k) in Hy by eauto. by rewrite Hx in Hy.
Qed.

Lemma found_told_apart env d name :
  (∀ k, is_Some (d !! k) → casefold env k = casefold env name → k = name) →
  found env d name = d !! name.
Proof.
  intros Hk. unfold found. rewrite find_entry_told_apart by done.
  by destruct (d !! name).
Qed.

Lemma found_case_sensitive env d name :
  found (case_sensitive env) d name = d !! name.
Proof. apply found_told_apart. by intros k _ Hk. Qed.

(** * Names the volume tells apart *)

Lemma NoDup_fmap_inj_on {A B} (f : A → B) (l : list A) a b :
  NoDup (f <$> l) → a ∈ l → b ∈ l → f a = f b → a = b.
Proof.
  induction l as [|x l IH]; intros Hnd Ha Hb Heq; [by apply elem_of_nil in Ha|].
  rewrite fmap_cons in Hnd. apply NoDup_cons in Hnd as [Hx Hnd].
  apply elem_of_cons in Ha as [->|Ha]; apply elem_of_cons in Hb as [->|Hb];
    [done| | |by apply IH].
  - destruct Hx. rewrite Heq. by apply list_elem_of_fmap_2.
  - destruct Hx. rewrite <-Heq. by apply list_elem_of_fmap_2.
Qed.

(** A volume that folds nothing tells all names apart. *)
Lemma names_told_apart_id env cands d :
  (∀ name, casefold env name = name) → names_told_apart env cands d.
Proof. intros Hid a b _ _. by rewrite !Hid. Qed.

(** A check by listing the names. *)
Lemma names_told_apart_NoDup env cands d :
  NoDup (casefold env
           <$> remove_dups ((c_name <$> cands) ++ (map_to_list d).*1)) →
  names_told_apart env cands d.
Proof.
  intros Hnd a b Ha Hb.
  assert (∀ n, n ∈ c_name <$> cands ∨ is_Some (d !! n) →
               n ∈ remove_dups ((c_name <$> cands) ++ (map_to_list d).*1))
    as Hin.
  { intros n Hn. rewrite elem_of_remove_dups, elem_of_app.
    destruct Hn as [?|[x Hx]]; [by left|right].
    apply list_elem_of_fmap. exists (n, x). split; [done|].
    by apply elem_of_map_to_list. }
  apply (NoDup_fmap_inj_on _ _ _ _ Hnd); by apply Hin.
Qed.

(** * The link primitives act on one entry *)

Lemma try_except_inr failed d d' :
  try_except failed d (inr d') = (true, d', []).
Proof. reflexivity. Qed.

Lemma make_link_effect env lt c d :
  make_link env lt (c_source c) (c_res c) (dest_root env lt) (c_name c)
    (is_windows env) d
  = match link_effect env lt c (found env d (c_name c)) with
    | inr o => (true, partial_alter (λ _, o) (c_name c) d, [])
    | inl x => (false, d, [match lt with
                           | DirectoryLink => MFailLinkDir x
                           | FileLink => MFailLinkFile x
                           end])
    end.
Proof.
  unfold link_effect.
  destruct lt; simpl; unfold create_link, create_file_link, mklink, os_symlink,
    run_create; destruct (is_windows env); simpl;
    repeat (case_match; simpl; try done).
Qed.

Lemma remove_link_effect env root name d :
  remove_link env root name (is_windows env) d
  = match remove_effect env root name (d !! name) with
    | inr o => (true, partial_alter (λ _, o) name d, [])
    | inl x => (false, d, [MFailRemove x])
    end.
Proof.
  unfold remove_effect, remove_link, os_rmdir, os_remove, run_syscall.
  destruct (is_windows env); simpl.
  - destruct (path_is_dir (d !! name)); repeat (case_match; simpl; try done).
  - destruct (path_is_symlink (d !! name) || path_is_file (d !! name)); simpl;
      repeat (case_match; simpl; try done).
Qed.

(** A link is only ever created where nothing was. *)
Lemma link_effect_inr env lt c e o :
  link_effect env lt c e = inr o → e = None ∧ is_Some o.
Proof.
  unfold link_effect, mklink_entry, symlink_entry.
  intros H. repeat case_match; simplify_eq; eauto.
Qed.

Lemma link_effect_Some env lt c x :
  succeeds (link_effect env lt c (Some x)) = false.
Proof.
  destruct (link_effect env lt c (Some x)) as [|o] eqn:H; [done|].
  by apply link_effect_inr in H as [? _].
Qed.

(** A removal only ever empties an entry that was there. *)
Lemma remove_effect_inr env root name e o :
  remove_effect env root name e = inr o → o = None ∧ is_Some e.
Proof.
  unfold remove_effect, rmdir_entry, remove_entry.
  intros H. repeat case_match; simplify_eq; eauto.
Qed.

Lemma remove_effect_None env root name :
  succeeds (remove_effect env root name None) = false.
Proof.
  destruct (remove_effect env root name None) as [|o] eqn:H; [done|].
  apply remove_effect_inr in H as [_ [? ?]]. done.
Qed.

Lemma present_Some e : present e = true → is_Some e.
Proof. destruct e; [eauto|done]. Qed.

(** * One step of the link loop *)

Lemma link_step_spec env lt t c :
  link_step env lt t c =
    if present (found env (t_listing t) (c_name c)) then
      Tally (t_listing t) (t_valid t ++ [c_name c]) (t_linked t)
        (S (t_skipped t)) (t_failed t)
    else
      match link_effect env lt c (found env (t_listing t) (c_name c)) with
      | inr o =>
          Tally (partial_alter (λ _, o) (c_name c) (t_listing t))
            (t_valid t ++ [c_name c]) (S (t_linked t)) (t_skipped t) (t_failed t)
      | inl _ =>
          Tally (t_listing t) (t_valid t ++ [c_name c]) (t_linked t)
            (t_skipped t) (S (t_failed t))
      end.
Proof.
  unfold link_step. rewrite make_link_effect.
  destruct (present _); [done|]. by destruct (link_effect _ _ _ _).
Qed.

Section link_loop.
Context (env : platform) (lt : link_type).

Local Abbreviation link_all := (foldl (link_step env lt)).
Local Abbreviation settled := (settled env lt).
Local Abbreviation visible := (visible env lt).

Lemma link_step_valid t c :
  t_valid (link_step env lt t c) = t_valid t ++ [c_name c].
Proof. rewrite link_step_spec. by repeat case_match. Qed.

Lemma link_all_valid cands t :
  t_valid (link_all t cands) = t_valid t ++ (c_name <$> cands).
Proof.
  revert t. induction cands as [|c cands IH]; intros t; simpl.
  - by rewrite app_nil_r.
  - by rewrite IH, link_step_valid, <-app_assoc.
Qed.

(** Entries that are there stay as they are. *)
Lemma link_step_lookup_Some t c n x :
  t_listing t !! n = Some x → t_listing (link_step env lt t c) !! n = Some x.
Proof.
  intros Hn. rewrite link_step_spec.
  destruct (present _); [done|].
  destruct (link_effect _ _ _ _) as [|o] eqn:Ho; [done|]. simpl.
  apply link_effect_inr in Ho as [Hnone%found_None_lookup _].
  rewrite lookup_partial_alter. case_decide; [congruence|done].
Qed.

Lemma link_all_lookup_Some cands t n x :
  t_listing t !! n = Some x → t_listing (link_all t cands) !! n = Some x.
Proof.
  revert t. induction cands as [|c cands IH]; intros t Hn; [done|].
  simpl. by apply IH, link_step_lookup_Some.
Qed.

(** Only the names of candidates are touched. *)
Lemma link_step_lookup_ne t c n :
  n ≠ c_name c → t_listing (link_step env lt t c) !! n = t_listing t !! n.
Proof.
  intros Hn. rewrite link_step_spec. repeat case_match; simpl; try done.
  rewrite lookup_partial_alter. case_decide; [congruence|done].
Qed.

Lemma link_all_lookup_ne cands t n :
  n ∉ c_name <$> cands →
  t_listing (link_all t cands) !! n = t_listing t !! n.
Proof.
  revert t. induction cands as [|c cands IH]; intros t Hn; [done|].
  simpl. rewrite fmap_cons, not_elem_of_cons in Hn. destruct Hn as [Hc Hn].
  by rewrite IH, link_step_lookup_ne.
Qed.

Lemma link_step_failed_mono t c :
  t_failed t ≤ t_failed (link_step env lt t c).
Proof. rewrite link_step_spec. repeat case_match; simpl; lia. Qed.

Lemma link_all_failed_mono cands t :
  t_failed t ≤ t_failed (link_all t cands).
Proof.
  revert t. induction cands as [|c cands IH]; intros t; simpl; [lia|].
  etrans; [apply link_step_failed_mono|apply IH].
Qed.

(** The names in the listing: those that were there and those of the
    candidates. *)
Lemma link_all_dom cands t n :
  is_Some (t_listing (link_all t cands) !! n) →
  is_Some (t_listing t !! n) ∨ n ∈ c_name <$> cands.
Proof.
  intros Hn. destruct (decide (n ∈ c_name <$> cands)) as [|Hne]; [by right|].
  left. by rewrite link_all_lookup_ne in Hn.
Qed.
End link_loop.

(** * The loop on a volume that tells the names apart

    There the volume finds under a name what is stored under it. *)
Section link_loop_exact.
Context (env : platform) (lt : link_type).
Hypothesis Hexact : ∀ d n, found env d n = d !! n.

Local Abbreviation link_all := (foldl (link_step env lt)).
Local Abbreviation settled := (settled env lt).
Local Abbreviation visible := (visible env lt).

Lemma settled_mono c e e' :
  (∀ x, e = Some x → e' = Some x) → settled c e → settled c e'.
Proof.
  intros Hkeep Hs. destruct e as [x|].
  - by rewrite (Hkeep x eq_refl).
  - destruct e' as [y|]; [|done]. right. apply link_effect_Some.
Qed.

Lemma link_step_settled t c :
  settled c (t_listing (link_step env lt t c) !! c_name c).
Proof.
  rewrite link_step_spec, Hexact.
  destruct (present _) eqn:Hp; [by left|].
  destruct (link_effect _ _ _ _) as [x|o] eqn:Ho; simpl.
  - right. by rewrite Ho.
  - right. apply link_effect_inr in Ho as [_ [y ->]].
    rewrite lookup_partial_alter. case_decide; [|done]. apply link_effect_Some.
Qed.

Lemma link_all_settled cands t c :
  c ∈ cands → settled c (t_listing (link_all t cands) !! c_name c).
Proof.
  revert t. induction cands as [|c' cands IH]; intros t Hc.
  - by apply elem_of_nil in Hc.
  - simpl. apply elem_of_cons in Hc as [->|Hc]; [|by apply IH].
    eapply settled_mono; [|apply link_step_settled].
    intros x Hx. by apply link_all_lookup_Some.
Qed.

(** On settled candidates the loop does nothing but count. *)
Lemma link_all_idle cands t :
  (∀ c, c ∈ cands → settled c (t_listing t !! c_name c)) →
  t_listing (link_all t cands) = t_listing t
  ∧ t_linked (link_all t cands) = t_linked t.
Proof.
  revert t. induction cands as [|c cands IH]; intros t Hs; [done|].
  simpl.
  assert (t_listing (link_step env lt t c) = t_listing t
          ∧ t_linked (link_step env lt t c) = t_linked t) as [Hl Hk].
  { rewrite link_step_spec, Hexact. destruct (present _) eqn:Hp; [done|].
    destruct (Hs c) as [?|Hf]; [left|congruence|].
    destruct (link_effect _ _ _ _); done. }
  destruct (IH (link_step env lt t c)) as [IH1 IH2].
  { intros c' Hc'. rewrite Hl. apply Hs. by right. }
  by rewrite IH1, IH2.
Qed.

Lemma link_all_present cands t :
  (∀ c, c ∈ cands → present (t_listing t !! c_name c) = true) →
  t_skipped (link_all t cands) = t_skipped t + length cands
  ∧ t_failed (link_all t cands) = t_failed t.
Proof.
  revert t. induction cands as [|c cands IH]; intros t Hs; simpl; [lia|].
  assert (link_step env lt t c
          = Tally (t_listing t) (t_valid t ++ [c_name c]) (t_linked t)
              (S (t_skipped t)) (t_failed t)) as Hstep.
  { rewrite link_step_spec, Hexact, Hs; [done|by left]. }
  destruct (IH (link_step env lt t c)) as [IH1 IH2].
  { intros c' Hc'. rewrite Hstep. simpl. apply Hs. by right. }
  rewrite IH1, IH2, Hstep. simpl. lia.
Qed.

(** Without a failure line every candidate ends up present. *)
Lemma link_all_no_failure cands t c :
  Forall visible cands →
  t_failed (link_all t cands) = t_failed t →
  c ∈ cands → present (t_listing (link_all t cands) !! c_name c) = true.
Proof.
  revert t. induction cands as [|c' cands IH]; intros t Hv Hf Hc.
  - by apply elem_of_nil in Hc.
  - simpl in *. apply Forall_cons in Hv as [Hv' Hv].
    pose proof (link_step_failed_mono env lt t c').
    pose proof (link_all_failed_mono env lt cands (link_step env lt t c')).
    apply elem_of_cons in Hc as [->|Hc]; [|apply IH; [done|lia|done]].
    assert (present (t_listing (link_step env lt t c') !! c_name c') = true)
      as Hp.
    { assert (t_failed (link_step env lt t c') = t_failed t) as Hf' by lia.
      revert Hf'. rewrite link_step_spec, Hexact.
      destruct (present _) eqn:Hp; [done|].
      destruct (link_effect _ _ _ _) as [x|o] eqn:Ho; simpl; [lia|].
      intros _. rewrite lookup_partial_alter. case_decide; [|done].
      apply Hv'. by destruct (link_effect_inr _ _ _ _ _ Ho) as [<- _]. }
    destruct (present_Some _ Hp) as [x Hx].
    by rewrite (link_all_lookup_Some _ _ _ _ _ _ Hx), <-Hx.
Qed.
End link_loop_exact.


(** * The cleanup loop *)

Section cleanup_loop.
Context (env : platform) (lt : link_type) (valid : list string).

Local Abbreviation cleanup_all := (foldl (cleanup_step env lt valid)).
Local Abbreviation removes := (to_remove env lt valid).

Lemma cleanup_step_spec d r f (existing : string * dnode) :
  cleanup_step env lt valid (d, r, f) existing =
    if obsolete lt valid existing.1 then
      if removes existing.1 (d !! existing.1)
      then (delete existing.1 d, S r, f)
      else (d, r, S f)
    else (d, r, f).
Proof.
  unfold cleanup_step, to_remove, obsolete.
  destruct (owned lt existing.1 && negb _); [|done]. simpl.
  rewrite remove_link_effect.
  destruct (remove_effect _ _ _ _) as [x|o] eqn:Ho; simpl; [done|].
  apply remove_effect_inr in Ho as [-> _]. done.
Qed.

Lemma to_remove_None n : removes n None = false.
Proof.
  unfold to_remove. by rewrite remove_effect_None, andb_false_r.
Qed.

Lemma cleanup_step_lookup d r f (existing : string * dnode) n :
  (cleanup_step env lt valid (d, r, f) existing).1.1 !! n =
    if bool_decide (n = existing.1) && removes n (d !! n) then None
    else d !! n.
Proof.
  rewrite cleanup_step_spec. case_bool_decide as Hn; simpl.
  - subst n. unfold to_remove.
    destruct (obsolete _ _ _); simpl; [|done].
    destruct (succeeds _); simpl; [|done]. apply lookup_delete_eq.
  - destruct (obsolete _ _ _); [|done].
    destruct (removes _ _); simpl; [|done]. by apply lookup_delete_ne.
Qed.

(** The listing after the loop, entry by entry. *)
Lemma cleanup_all_lookup (l : list (string * dnode)) d r f n :
  NoDup l.*1 →
  (cleanup_all (d, r, f) l).1.1 !! n =
    if bool_decide (n ∈ l.*1) && removes n (d !! n) then None else d !! n.
Proof.
  revert d r f. induction l as [|x l IH]; intros d r f Hnd.
  - case_bool_decide as Hn; [by apply elem_of_nil in Hn|done].
  - rewrite fmap_cons in Hnd |- *. apply NoDup_cons in Hnd as [Hx Hnd].
    cbn [foldl].
    destruct (cleanup_step env lt valid (d, r, f) x) as [[d1 r1] f1] eqn:Hs.
    rewrite IH by done.
    assert (d1 !! n = if bool_decide (n = x.1) && removes n (d !! n)
                      then None else d !! n) as Hd1.
    { by rewrite <-cleanup_step_lookup with (r:=r) (f:=f), Hs. }
    rewrite Hd1.
    destruct (decide (n = x.1)) as [->|Hne].
    + rewrite (bool_decide_eq_false_2 (x.1 ∈ l.*1)) by done.
      rewrite (bool_decide_eq_true_2 (x.1 ∈ x.1 :: l.*1)) by left.
      by rewrite bool_decide_eq_true_2.
    + rewrite (bool_decide_eq_false_2 (n = x.1)) by done. simpl.
      destruct (decide (n ∈ l.*1)) as [Hin|Hin].
      * rewrite !bool_decide_eq_true_2; [done|by right|done].
      * rewrite !bool_decide_eq_false_2; [done| |done].
        rewrite not_elem_of_cons. done.
Qed.

(** Where nothing is to be removed the loop changes nothing. *)
Lemma cleanup_all_idle (l : list (string * dnode)) d r f :
  (∀ n, n ∈ l.*1 → removes n (d !! n) = false) →
  (cleanup_all (d, r, f) l).1.1 = d ∧ (cleanup_all (d, r, f) l).1.2 = r.
Proof.
  revert f. induction l as [|x l IH]; intros f Hl; [done|].
  simpl. rewrite cleanup_step_spec, Hl by (rewrite fmap_cons; left).
  destruct (obsolete _ _ _); apply IH; intros n Hn; apply Hl;
    rewrite fmap_cons; by right.
Qed.

Lemma cleanup_step_failed_mono acc x :
  acc.2 ≤ (cleanup_step env lt valid acc x).2.
Proof.
  destruct acc as [[d r] f]. rewrite cleanup_step_spec.
  repeat case_match; simpl; lia.
Qed.

Lemma cleanup_all_failed_mono l acc : acc.2 ≤ (cleanup_all acc l).2.
Proof.
  revert acc. induction l as [|x l IH]; intros acc; simpl; [lia|].
  etrans; [apply cleanup_step_failed_mono|apply IH].
Qed.

(** Without a failure every obsolete entry of the listing is gone. *)
Lemma cleanup_all_no_failure (l : list (string * dnode)) d r f n :
  NoDup l.*1 →
  (cleanup_all (d, r, f) l).2 = f →
  n ∈ l.*1 → obsolete lt valid n = true →
  (cleanup_all (d, r, f) l).1.1 !! n = None.
Proof.
  intros Hnd Hf Hn Hobs. rewrite cleanup_all_lookup by done.
  rewrite bool_decide_eq_true_2 by done. simpl.
  destruct (removes n (d !! n)) eqn:Hrm; [done|]. exfalso.
  revert d r f Hnd Hf Hn Hrm.
  induction l as [|x l IH]; intros d r f Hnd Hf Hn Hrm.
  - by apply elem_of_nil in Hn.
  - rewrite fmap_cons in Hnd, Hn. apply NoDup_cons in Hnd as [Hx Hnd].
    simpl in Hf.
    pose proof (cleanup_step_failed_mono (d, r, f) x) as Hm1.
    pose proof (cleanup_all_failed_mono l (cleanup_step env lt valid (d, r, f) x))
      as Hm2.
    pose proof (cleanup_step_lookup d r f x n) as Hlk.
    rewrite cleanup_step_spec in Hf, Hm1, Hm2, Hlk.
    apply elem_of_cons in Hn as [->|Hn].
    + rewrite Hobs, Hrm in Hf, Hm2. cbn [fst snd] in *. lia.
    + assert (n ≠ x.1) as Hne by (intros ->; done).
      rewrite (bool_decide_eq_false_2 (n = x.1)) in Hlk by done.
      simpl in Hlk.
      destruct (obsolete lt valid x.1); [destruct (removes x.1 _)|];
        cbn [fst snd andb] in *.
      * eapply (IH (delete x.1 d)); [done|done|done|by rewrite Hlk].
      * lia.
      * by eapply (IH d).
Qed.
End cleanup_loop.

(** * Reconciliation of one destination *)

Section reconcile.
Context (env : platform) (lt : link_type).

Local Abbreviation link_all := (foldl (link_step env lt)).
Local Abbreviation names := (fmap (M:=list) c_name).

Local Abbreviation after_links := (linked_listing env lt).

Lemma reconcile_unfold cands d :
  reconcile env lt cands d =
    let t := link_all (Tally d [] 0 0 0) cands in
    let acc := foldl (cleanup_step env lt (t_valid t)) (t_listing t, 0, 0)
                 (sorted env (map_to_list (t_listing t))) in
    {| o_listing := acc.1.1;
       o_counts := {| bridged := length (t_valid t); new := t_linked t;
                      existing := t_skipped t; removed := acc.1.2 |};
       o_link_failures := t_failed t;
       o_remove_failures := acc.2 |}.
Proof. unfold reconcile. simpl. by destruct (foldl _ _ _) as [[??]?]. Qed.

Lemma reconcile_bridged cands d :
  bridged (o_counts (reconcile env lt cands d)) = length cands.
Proof.
  rewrite reconcile_unfold. simpl. rewrite link_all_valid. simpl.
  by rewrite length_fmap.
Qed.

Lemma reconcile_lookup cands d n :
  o_listing (reconcile env lt cands d) !! n =
    if to_remove env lt (names cands) n (after_links cands d !! n)
    then None else after_links cands d !! n.
Proof.
  rewrite reconcile_unfold. cbn [o_listing].
  rewrite cleanup_all_lookup by apply sorted_listing_NoDup.
  rewrite link_all_valid. cbn [t_valid app]. fold (linked_listing env lt cands d).
  case_bool_decide as Hn; [done|].
  rewrite elem_of_sorted_listing, <-eq_None_not_Some in Hn.
  fold (linked_listing env lt cands d) in Hn. rewrite Hn.
  simpl. by rewrite to_remove_None.
Qed.

Lemma to_remove_valid valid n e : n ∈ valid → to_remove env lt valid n e = false.
Proof.
  intros Hn. unfold to_remove, obsolete.
  by rewrite bool_decide_eq_true_2, andb_false_r by done.
Qed.

(** Entries with a candidate's name are left to the link loop. *)
Lemma reconcile_lookup_valid cands d n :
  n ∈ names cands →
  o_listing (reconcile env lt cands d) !! n = after_links cands d !! n.
Proof. intros Hn. by rewrite reconcile_lookup, to_remove_valid. Qed.

(** Frame: a name the destination does not own is not touched. *)
Lemma reconcile_frame cands d n :
  (∀ c, c ∈ cands → owned lt (c_name c) = true) →
  owned lt n = false →
  o_listing (reconcile env lt cands d) !! n = d !! n.
Proof.
  intros Hown Hn. rewrite reconcile_lookup.
  unfold to_remove, obsolete. rewrite Hn. simpl.
  unfold linked_listing. rewrite link_all_lookup_ne; [done|].
  intros [c [-> Hc]]%list_elem_of_fmap. rewrite Hown in Hn; done.
Qed.

(** An obsolete entry is gone, or it is as before and cannot be removed. *)
Lemma reconcile_obsolete cands d n :
  owned lt n = true → n ∉ names cands →
  o_listing (reconcile env lt cands d) !! n = None
  ∨ (o_listing (reconcile env lt cands d) !! n = d !! n
     ∧ succeeds (remove_effect env (dest_root env lt) n (d !! n)) = false).
Proof.
  intros Hown Hn. rewrite reconcile_lookup.
  unfold linked_listing. rewrite link_all_lookup_ne by done. simpl.
  unfold to_remove, obsolete.
  rewrite Hown, bool_decide_eq_false_2 by done. simpl.
  destruct (succeeds _); [by left|by right].
Qed.

End reconcile.

(** * Reconciliation on a volume that tells the names apart *)

Section reconcile_exact.
Context (env : platform) (lt : link_type).
Hypothesis Hexact : ∀ d n, found env d n = d !! n.

Local Abbreviation link_all := (foldl (link_step env lt)).
Local Abbreviation names := (fmap (M:=list) c_name).
Local Abbreviation after_links := (linked_listing env lt).

(** Idempotence: a second reconciliation of the same candidates changes
    nothing, links nothing and removes nothing. *)
Lemma reconcile_idem cands d :
  let o1 := reconcile env lt cands d in
  let o2 := reconcile env lt cands (o_listing o1) in
  o_listing o2 = o_listing o1
  ∧ new (o_counts o2) = 0
  ∧ removed (o_counts o2) = 0.
Proof.
  intros o1 o2.
  assert (∀ c, c ∈ cands → settled env lt c (o_listing o1 !! c_name c)) as Hs.
  { intros c Hc. unfold o1. rewrite reconcile_lookup_valid.
    - by apply link_all_settled.
    - by apply list_elem_of_fmap_2. }
  destruct (link_all_idle env lt Hexact cands (Tally (o_listing o1) [] 0 0 0) Hs)
    as [Hl Hk]. simpl in Hl, Hk.
  assert (∀ n, to_remove env lt (names cands) n (o_listing o1 !! n) = false)
    as Hrm.
  { intros n. unfold o1. rewrite reconcile_lookup.
    destruct (to_remove _ _ _ _ (after_links _ _ !! _)) eqn:E; [|done].
    apply to_remove_None. }
  unfold o2. rewrite reconcile_unfold. simpl.
  rewrite link_all_valid, Hl, Hk. simpl.
  destruct (cleanup_all_idle env lt (names cands)
              (sorted env (map_to_list (o_listing o1))) (o_listing o1) 0 0)
    as [H1 H2]; [by intros n _|].
  by rewrite H1, H2.
Qed.

(** After a first reconciliation without link failure, the second finds
    every candidate in place. *)
Lemma reconcile_idem_present cands d :
  Forall (visible env lt) cands →
  let o1 := reconcile env lt cands d in
  let o2 := reconcile env lt cands (o_listing o1) in
  o_link_failures o1 = 0 →
  existing (o_counts o2) = length cands ∧ o_link_failures o2 = 0.
Proof.
  intros Hv o1 o2 Hf.
  assert (∀ c, c ∈ cands → present (o_listing o1 !! c_name c) = true) as Hp.
  { intros c Hc. unfold o1. rewrite reconcile_lookup_valid
      by by apply list_elem_of_fmap_2.
    apply (link_all_no_failure env lt Hexact); [done| |done].
    unfold o1 in Hf. rewrite reconcile_unfold in Hf. done. }
  destruct (link_all_present env lt Hexact cands (Tally (o_listing o1) [] 0 0 0) Hp)
    as [H1 H2].
  unfold o2. rewrite reconcile_unfold. simpl. by rewrite H1, H2.
Qed.

(** Convergence: without any failure the owned names of the destination
    are exactly the candidates' names. *)
Lemma reconcile_converge cands d n :
  Forall (visible env lt) cands →
  o_link_failures (reconcile env lt cands d) = 0 →
  o_remove_failures (reconcile env lt cands d) = 0 →
  owned lt n = true →
  is_Some (o_listing (reconcile env lt cands d) !! n) ↔ n ∈ names cands.
Proof.
  intros Hv Hlf Hrf Hown. split.
  - intros Hsome. destruct (decide (n ∈ names cands)) as [|Hn]; [done|].
    exfalso. rewrite reconcile_unfold in Hsome, Hrf. simpl in Hsome, Hrf.
    rewrite cleanup_all_no_failure in Hsome.
    + by destruct Hsome.
    + apply sorted_listing_NoDup.
    + done.
    + rewrite cleanup_all_lookup in Hsome by apply sorted_listing_NoDup.
      case_bool_decide as Hin; [done|].
      rewrite elem_of_sorted_listing in Hin.
      simpl in Hsome. done.
    + unfold obsolete. rewrite Hown, link_all_valid. simpl.
      by rewrite bool_decide_eq_false_2.
  - intros Hn. rewrite reconcile_lookup_valid by done.
    apply list_elem_of_fmap in Hn as [c [-> Hc]].
    apply present_Some, (link_all_no_failure env lt Hexact); [done| |done].
    rewrite reconcile_unfold in Hlf. done.
Qed.
End reconcile_exact.

(** * Names the volume tells apart

    Where the names of the candidates and of the entries are told apart,
    the run is the run on a case-sensitive volume. *)

Lemma link_step_case_sensitive env lt t c :
  (∀ k, is_Some (t_listing t !! k) →
        casefold env k = casefold env (c_name c) → k = c_name c) →
  link_step env lt t c = link_step (case_sensitive env) lt t c.
Proof.
  intros Hk. rewrite !link_step_spec, found_case_sensitive.
  by rewrite found_told_apart.
Qed.

Lemma names_told_apart_cons env c cands d :
  names_told_apart env (c :: cands) d →
  (∀ k, is_Some (d !! k) → casefold env k = casefold env (c_name c) →
        k = c_name c)
  ∧ ∀ d', (∀ k, is_Some (d' !! k) → is_Some (d !! k) ∨ k = c_name c) →
          names_told_apart env cands d'.
Proof.
  intros Ht. split.
  - intros k Hk. apply Ht; [by right|]. left. rewrite fmap_cons. left.
  - intros d' Hd' a b Ha Hb. apply Ht.
    + destruct Ha as [Ha|Ha]; [left; rewrite fmap_cons; by right|].
      destruct (Hd' a Ha) as [?| ->]; [by right|left; rewrite fmap_cons; left].
    + destruct Hb as [Hb|Hb]; [left; rewrite fmap_cons; by right|].
      destruct (Hd' b Hb) as [?| ->]; [by right|left; rewrite fmap_cons; left].
Qed.

Lemma link_all_case_sensitive env lt cands t :
  names_told_apart env cands (t_listing t) →
  foldl (link_step env lt) t cands
  = foldl (link_step (case_sensitive env) lt) t cands.
Proof.
  revert t. induction cands as [|c cands IH]; intros t Ht; [done|].
  apply names_told_apart_cons in Ht as [Hc Ht].
  cbn [foldl]. rewrite <-link_step_case_sensitive by done.
  apply IH, Ht. intros k Hk.
  destruct (decide (k = c_name c)) as [|Hne]; [by right|left].
  by rewrite link_step_lookup_ne in Hk.
Qed.

Lemma reconcile_case_sensitive env lt cands d :
  names_told_apart env cands d →
  reconcile env lt cands d = reconcile (case_sensitive env) lt cands d.
Proof.
  intros Ht. unfold reconcile.
  by rewrite (link_all_case_sensitive env lt cands (Tally d [] 0 0 0)).
Qed.

(** The names stay told apart: a run adds no name but those of the
    candidates. *)
Lemma reconcile_dom env lt cands d n :
  is_Some (o_listing (reconcile env lt cands d) !! n) →
  is_Some (d !! n) ∨ n ∈ c_name <$> cands.
Proof.
  rewrite reconcile_lookup. destruct (to_remove _ _ _ _ _).
  - by intros [? ?].
  - apply (link_all_dom env lt cands (Tally d [] 0 0 0)).
Qed.

Lemma names_told_apart_reconcile env lt cands d :
  names_told_apart env cands d →
  names_told_apart env cands (o_listing (reconcile env lt cands d)).
Proof.
  intros Ht a b Ha Hb. apply Ht.
  - destruct Ha as [?|[?|?]%reconcile_dom]; auto.
  - destruct Hb as [?|[?|?]%reconcile_dom]; auto.
Qed.

(** Idempotence and convergence, where the names are told apart. *)
Section reconcile_told_apart.
Context (env : platform) (lt : link_type) (cands : list candidate)
  (d : gmap string dnode).
Hypothesis Htold : names_told_apart env cands d.

Lemma reconcile_twice_case_sensitive :
  reconcile env lt cands (o_listing (reconcile env lt cands d))
  = reconcile (case_sensitive env) lt cands
      (o_listing (reconcile (case_sensitive env) lt cands d)).
Proof.
  rewrite (reconcile_case_sensitive env lt cands (o_listing _))
    by by apply names_told_apart_reconcile.
  by rewrite (reconcile_case_sensitive env lt cands d).
Qed.

Lemma reconcile_idem_told_apart :
  let o1 := reconcile env lt cands d in
  let o2 := reconcile env lt cands (o_listing o1) in
  o_listing o2 = o_listing o1
  ∧ new (o_counts o2) = 0
  ∧ removed (o_counts o2) = 0.
Proof.
  intros o1 o2. unfold o2, o1.
  rewrite reconcile_twice_case_sensitive, (reconcile_case_sensitive env) by done.
  apply (reconcile_idem (case_sensitive env) lt (found_case_sensitive env)).
Qed.

Lemma reconcile_idem_present_told_apart :
  Forall (visible env lt) cands →
  let o1 := reconcile env lt cands d in
  let o2 := reconcile env lt cands (o_listing o1) in
  o_link_failures o1 = 0 →
  existing (o_counts o2) = length cands ∧ o_link_failures o2 = 0.
Proof.
  intros Hv o1 o2. unfold o2, o1.
  rewrite reconcile_twice_case_sensitive, (reconcile_case_sensitive env) by done.
  by apply (reconcile_idem_present (case_sensitive env) lt
              (found_case_sensitive env)).
Qed.

Lemma reconcile_converge_told_apart n :
  Forall (visible env lt) cands →
  o_link_failures (reconcile env lt cands d) = 0 →
  o_remove_failures (reconcile env lt cands d) = 0 →
  owned lt n = true →
  is_Some (o_listing (reconcile env lt cands d) !! n) ↔ n ∈ c_name <$> cands.
Proof.
  intros Hv. rewrite (reconcile_case_sensitive env) by done.
  by apply (reconcile_converge (case_sensitive env) lt
              (found_case_sensitive env)).
Qed.

(** Without a link failure every candidate's name holds an entry that
    passes the presence test. *)
Lemma reconcile_present_told_apart c :
  Forall (visible env lt) cands →
  o_link_failures (reconcile env lt cands d) = 0 →
  c ∈ cands →
  present (o_listing (reconcile env lt cands d) !! c_name c) = true.
Proof.
  intros Hv Hf Hc. rewrite (reconcile_case_sensitive env) in Hf |- * by done.
  rewrite reconcile_lookup_valid by by apply list_elem_of_fmap_2.
  apply (link_all_no_failure (case_sensitive env) lt
           (found_case_sensitive env)); [done| |done].
  by rewrite reconcile_unfold in Hf.
Qed.
End reconcile_told_apart.

(** * The loops of [cmd_sync] are the scan followed by two reconciliations *)

Lemma count_msgs_app p l k :
  count_msgs p (l ++ k) = count_msgs p l + count_msgs p k.
Proof. unfold count_msgs. by rewrite filter_app, length_app. Qed.

Lemma count_msgs_link_failure out :
  count_msgs is_link_failure out
  = count_msgs is_dir_link_failure out + count_msgs is_file_link_failure out.
Proof.
  unfold count_msgs. induction out as [|m out IH]; [done|].
  rewrite !filter_cons. destruct m; simpl; rewrite ?IH; lia.
Qed.

Lemma try_except_out failed d r ok d' out :
  try_except failed d r = (ok, d', out) →
  (ok = true ∧ out = []) ∨ (ok = false ∧ ∃ e, out = [failed e]).
Proof. destruct r; intros [= <- <- <-]; eauto. Qed.

(** The output of a link primitive, once its answer is known: count the
    failure lines it adds. *)
Ltac count_out E :=
  rewrite ?count_msgs_app;
  apply try_except_out in E as [[-> ->]|[-> [? ->]]];
  unfold count_msgs; simpl; lia.

(** Folding over a concatenation of blocks, seen through a projection. *)
Lemma foldl_bind {A B C} (f : A → C → A) (g : B → list C) l a :
  foldl f a (l ≫= g) = foldl (λ a x, foldl f a (g x)) a l.
Proof.
  revert a. induction l as [|x l IH]; intros a; [done|].
  by rewrite bind_cons, foldl_app, IH.
Qed.

Lemma foldl_proj {S T X Y} (π : S → T) (step : S → X → S) (g : X → list Y)
    (f : T → Y → T) :
  (∀ s x, π (step s x) = foldl f (π s) (g x)) →
  ∀ l s, π (foldl step s l) = foldl f (π s) (l ≫= g).
Proof.
  intros Hstep l. induction l as [|x l IH]; intros s; [done|].
  by rewrite bind_cons, foldl_app, <-Hstep, <-IH.
Qed.

Lemma foldl_filter_proj {S T X Y} (π : S → T) (step : S → X → S)
    (P : X → bool) (g : X → list Y) (f : T → Y → T) :
  (∀ s x, π (step s x) = if P x then foldl f (π s) (g x) else π s) →
  ∀ l s, π (foldl step s l) = foldl f (π s) (filter (λ x, P x) l ≫= g).
Proof.
  intros Hstep l. induction l as [|x l IH]; intros s; [done|].
  cbn [foldl]. rewrite IH, Hstep, filter_cons.
  case_decide as HP.
  - apply Is_true_true in HP. by rewrite HP, bind_cons, foldl_app.
  - apply Is_true_false in HP. by rewrite HP.
Qed.

Lemma foldl_inv {S X T} (π : S → T) (step : S → X → S) :
  (∀ s x, π (step s x) = π s) → ∀ l s, π (foldl step s l) = π s.
Proof.
  intros Hstep l. induction l as [|x l IH]; intros s; [done|].
  cbn [foldl]. by rewrite IH.
Qed.

Section sync_loops.
Context (env : platform).

(** The workflow step. *)
Lemma sync_workflow_plugins mp_name plugin_name commands_dir s cmd_file :
  plugins_tally (sync_workflow env mp_name plugin_name commands_dir s cmd_file)
  = plugins_tally s.
Proof.
  unfold sync_workflow. destruct (present _); [done|].
  destruct (create_file_link _ _ _ _ _ _ _) as [[ok d] out] eqn:E.
  unfold plugins_tally. simpl. f_equal.
  count_out E.
Qed.

Lemma sync_workflow_workflows mp_dir plugin_dir s cmd_file :
  workflows_tally
    (sync_workflow env mp_dir.1 plugin_dir.1
       ((plugin_base_of env mp_dir).1 </> plugin_dir.1 </> "commands")
       s cmd_file)
  = link_step env FileLink (workflows_tally s)
      (workflow_candidate env mp_dir plugin_dir cmd_file).
Proof.
  unfold sync_workflow, link_step, workflow_candidate. simpl.
  destruct (present _); [done|].
  destruct (create_file_link _ _ _ _ _ _ _) as [[ok d] out] eqn:E.
  unfold workflows_tally. simpl. f_equal.
  count_out E.
Qed.

(** The plugin link. *)
Lemma sync_plugin_link_workflows mp_name plugin_base s plugin_dir :
  workflows_tally (sync_plugin_link env mp_name plugin_base s plugin_dir)
  = workflows_tally s.
Proof.
  unfold sync_plugin_link. destruct (present _); [done|].
  destruct (create_link _ _ _ _ _ _ _) as [[ok d] out] eqn:E.
  unfold workflows_tally. simpl. f_equal.
  count_out E.
Qed.

Lemma sync_plugin_link_plugins mp_dir s plugin_dir :
  plugins_tally
    (sync_plugin_link env mp_dir.1 (plugin_base_of env mp_dir).1 s plugin_dir)
  = link_step env DirectoryLink (plugins_tally s)
      (plugin_candidate env mp_dir plugin_dir).
Proof.
  unfold sync_plugin_link, link_step, plugin_candidate. simpl.
  destruct (present _); [done|].
  destruct (create_link _ _ _ _ _ _ _) as [[ok d] out] eqn:E.
  unfold plugins_tally. simpl. f_equal.
  count_out E.
Qed.

(** The plugin step. *)
Lemma sync_plugin_plugins mp_dir s plugin_dir :
  plugins_tally
    (sync_plugin env mp_dir.1 (plugin_base_of env mp_dir).1 s plugin_dir)
  = if snode_is_dir plugin_dir.2 && is_plugin_dir plugin_dir.1 plugin_dir.2
    then foldl (link_step env DirectoryLink) (plugins_tally s)
           [plugin_candidate env mp_dir plugin_dir]
    else plugins_tally s.
Proof.
  unfold sync_plugin.
  destruct (snode_is_dir plugin_dir.2); [|done].
  destruct (is_plugin_dir plugin_dir.1 plugin_dir.2); [|done]. simpl.
  rewrite <-sync_plugin_link_plugins.
  destruct (snode_exists _ && snode_is_dir _); [|done].
  apply foldl_inv. intros. apply sync_workflow_plugins.
Qed.

Lemma sync_plugin_workflows mp_dir s plugin_dir :
  workflows_tally
    (sync_plugin env mp_dir.1 (plugin_base_of env mp_dir).1 s plugin_dir)
  = if snode_is_dir plugin_dir.2 && is_plugin_dir plugin_dir.1 plugin_dir.2
    then foldl (link_step env FileLink) (workflows_tally s)
           (cmd_file ← commands_of env plugin_dir;
            [workflow_candidate env mp_dir plugin_dir cmd_file])
    else workflows_tally s.
Proof.
  unfold sync_plugin, commands_of.
  destruct (snode_is_dir plugin_dir.2); [|done].
  destruct (is_plugin_dir plugin_dir.1 plugin_dir.2); [|done]. simpl.
  destruct (snode_exists _ && snode_is_dir _).
  - rewrite (foldl_proj workflows_tally _
               (λ cmd_file, [workflow_candidate env mp_dir plugin_dir cmd_file])
               (link_step env FileLink)).
    + by rewrite sync_plugin_link_workflows.
    + intros s' x. apply sync_workflow_workflows.
  - apply sync_plugin_link_workflows.
Qed.

Lemma print_marketplace_plugins mp_name s :
  plugins_tally (print (MMarketplace mp_name) s) = plugins_tally s.
Proof.
  unfold plugins_tally, print. simpl. f_equal.
  rewrite count_msgs_app. unfold count_msgs at 2. simpl. lia.
Qed.

Lemma print_marketplace_workflows mp_name s :
  workflows_tally (print (MMarketplace mp_name) s) = workflows_tally s.
Proof.
  unfold workflows_tally, print. simpl. f_equal.
  rewrite count_msgs_app. unfold count_msgs at 2. simpl. lia.
Qed.

(** The marketplace step. *)
Lemma sync_marketplace_plugins s mp_dir :
  plugins_tally (sync_marketplace env s mp_dir)
  = foldl (link_step env DirectoryLink) (plugins_tally s)
      (plugin_dir ← plugins_of env mp_dir;
       [plugin_candidate env mp_dir plugin_dir]).
Proof.
  unfold sync_marketplace, plugins_of.
  destruct (negb _ || _); [done|]. simpl.
  rewrite (foldl_filter_proj plugins_tally _
             (λ plugin_dir, snode_is_dir plugin_dir.2
                            && is_plugin_dir plugin_dir.1 plugin_dir.2)
             (λ plugin_dir, [plugin_candidate env mp_dir plugin_dir])
             (link_step env DirectoryLink)).
  - by rewrite print_marketplace_plugins.
  - intros s' x. apply sync_plugin_plugins.
Qed.

Lemma sync_marketplace_workflows s mp_dir :
  workflows_tally (sync_marketplace env s mp_dir)
  = foldl (link_step env FileLink) (workflows_tally s)
      (plugin_dir ← plugins_of env mp_dir;
       cmd_file ← commands_of env plugin_dir;
       [workflow_candidate env mp_dir plugin_dir cmd_file]).
Proof.
  unfold sync_marketplace, plugins_of.
  destruct (negb _ || _); [done|]. simpl.
  rewrite (foldl_filter_proj workflows_tally _
             (λ plugin_dir, snode_is_dir plugin_dir.2
                            && is_plugin_dir plugin_dir.1 plugin_dir.2)
             (λ plugin_dir, cmd_file ← commands_of env plugin_dir;
                            [workflow_candidate env mp_dir plugin_dir cmd_file])
             (link_step env FileLink)).
  - by rewrite print_marketplace_workflows.
  - intros s' x. apply sync_plugin_workflows.
Qed.

(** The whole link phase. *)
Lemma sync_loops_plugins s m :
  plugins_tally (foldl (sync_marketplace env) s (sorted env m))
  = foldl (link_step env DirectoryLink) (plugins_tally s)
      (plugin_candidates env m).
Proof. apply foldl_proj, sync_marketplace_plugins. Qed.

Lemma sync_loops_workflows s m :
  workflows_tally (foldl (sync_marketplace env) s (sorted env m))
  = foldl (link_step env FileLink) (workflows_tally s)
      (workflow_candidates env m).
Proof. apply foldl_proj, sync_marketplace_workflows. Qed.

(** The link phase prints no removal failure. *)
Lemma sync_workflow_remove_failures mp_name plugin_name commands_dir s cmd_file :
  count_msgs is_remove_failure
    (stdout (sync_workflow env mp_name plugin_name commands_dir s cmd_file))
  = count_msgs is_remove_failure (stdout s).
Proof.
  unfold sync_workflow. destruct (present _); [done|].
  destruct (create_file_link _ _ _ _ _ _ _) as [[ok d] out] eqn:E. simpl.
  count_out E.
Qed.

Lemma sync_plugin_remove_failures mp_name plugin_base s plugin_dir :
  count_msgs is_remove_failure
    (stdout (sync_plugin env mp_name plugin_base s plugin_dir))
  = count_msgs is_remove_failure (stdout s).
Proof.
  unfold sync_plugin.
  destruct (negb (snode_is_dir _)); [done|].
  destruct (negb (is_plugin_dir _ _)); [done|].
  assert (count_msgs is_remove_failure
            (stdout (sync_plugin_link env mp_name plugin_base s plugin_dir))
          = count_msgs is_remove_failure (stdout s)) as Hl.
  { unfold sync_plugin_link. destruct (present _); [done|].
    destruct (create_link _ _ _ _ _ _ _) as [[ok d] out] eqn:E. simpl.
    count_out E. }
  destruct (snode_exists _ && snode_is_dir _); [|done].
  rewrite <-Hl.
  apply (foldl_inv (λ s, count_msgs is_remove_failure (stdout s))).
  intros. apply sync_workflow_remove_failures.
Qed.

Lemma sync_loops_remove_failures s l :
  count_msgs is_remove_failure (stdout (foldl (sync_marketplace env) s l))
  = count_msgs is_remove_failure (stdout s).
Proof.
  apply (foldl_inv (λ s, count_msgs is_remove_failure (stdout s))).
  intros s' mp_dir. unfold sync_marketplace.
  destruct (negb _ || _); [done|].
  rewrite (foldl_inv (λ s, count_msgs is_remove_failure (stdout s))).
  - unfold print. simpl. rewrite count_msgs_app.
    unfold count_msgs at 2. simpl. lia.
  - intros. apply sync_plugin_remove_failures.
Qed.

(** The cleanup loops. *)
Lemma cleanup_plugin_view valid acc existing :
  cleanup_view (cleanup_plugin env valid acc existing)
  = cleanup_step env DirectoryLink valid (cleanup_view acc) existing.
Proof.
  destruct acc as [[d out] r].
  unfold cleanup_plugin, cleanup_step, cleanup_view. simpl.
  destruct (negb _); [|done].
  destruct (remove_link _ _ _ _ _) as [[ok d'] out'] eqn:E. simpl.
  rewrite count_msgs_app.
  apply try_except_out in E as [[-> ->]|[-> [e ->]]]; unfold count_msgs at 2;
    simpl; repeat f_equal; lia.
Qed.

Lemma cleanup_workflow_view valid acc existing :
  cleanup_view (cleanup_workflow env valid acc existing)
  = cleanup_step env FileLink valid (cleanup_view acc) existing.
Proof.
  destruct acc as [[d out] r].
  unfold cleanup_workflow, cleanup_step, cleanup_view. simpl.
  destruct (startswith _ _ && negb _); [|done].
  destruct (remove_link _ _ _ _ _) as [[ok d'] out'] eqn:E. simpl.
  rewrite count_msgs_app.
  apply try_except_out in E as [[-> ->]|[-> [e ->]]]; unfold count_msgs at 2;
    simpl; repeat f_equal; lia.
Qed.

Lemma foldl_view {S T X} (π : S → T) (step : S → X → S) (f : T → X → T) :
  (∀ s x, π (step s x) = f (π s) x) →
  ∀ l s, π (foldl step s l) = foldl f (π s) l.
Proof.
  intros Hstep l. induction l as [|x l IH]; intros s; [done|].
  cbn [foldl]. by rewrite IH, Hstep.
Qed.

(** The cleanup loops print no link failure. *)
Lemma cleanup_plugin_count p valid acc existing :
  (∀ e, p (MFailRemove e) = false) →
  (∀ n, p (MRemovePlugin n) = false) →
  count_msgs p (cleanup_plugin env valid acc existing).1.2
  = count_msgs p acc.1.2.
Proof.
  intros Hp1 Hp2. destruct acc as [[d out] r]. unfold cleanup_plugin.
  destruct (negb _); [|done].
  destruct (remove_link _ _ _ _ _) as [[ok d'] out'] eqn:E. simpl.
  rewrite count_msgs_app.
  apply try_except_out in E as [[-> ->]|[-> [e ->]]]; unfold count_msgs at 2;
    rewrite !filter_cons, ?Hp1, ?Hp2; simpl; lia.
Qed.

Lemma cleanup_workflow_count p valid acc existing :
  (∀ e, p (MFailRemove e) = false) →
  (∀ n, p (MRemoveWorkflow n) = false) →
  count_msgs p (cleanup_workflow env valid acc existing).1.2
  = count_msgs p acc.1.2.
Proof.
  intros Hp1 Hp2. destruct acc as [[d out] r]. unfold cleanup_workflow.
  destruct (startswith _ _ && negb _); [|done].
  destruct (remove_link _ _ _ _ _) as [[ok d'] out'] eqn:E. simpl.
  rewrite count_msgs_app.
  apply try_except_out in E as [[-> ->]|[-> [e ->]]]; unfold count_msgs at 2;
    rewrite !filter_cons, ?Hp1, ?Hp2; simpl; lia.
Qed.

(** A cleanup loop started with failures already counted. *)
Lemma cleanup_all_shift lt valid l d r f k :
  foldl (cleanup_step env lt valid) (d, r, f + k) l
  = let acc := foldl (cleanup_step env lt valid) (d, r, f) l in
    (acc.1.1, acc.1.2, acc.2 + k).
Proof.
  revert d r f. induction l as [|x l IH]; intros d r f; [done|].
  cbn [foldl]. rewrite !cleanup_step_spec.
  destruct (obsolete _ _ _); [|apply IH].
  destruct (to_remove _ _ _ _ _); [apply IH|apply (IH d r (S f))].
Qed.
End sync_loops.

Lemma summary_snoc out p w : summary (out ++ [MDone p w]) = Some (p, w).
Proof. unfold summary. by rewrite last_snoc. Qed.

Lemma count_msgs_snoc_done p out a b :
  p (MDone a b) = false → count_msgs p (out ++ [MDone a b]) = count_msgs p out.
Proof.
  intros Hp. rewrite count_msgs_app. unfold count_msgs at 2.
  rewrite filter_cons, Hp. simpl. lia.
Qed.

(** [cmd_sync] on an existing marketplace: the scan, then one
    reconciliation per destination. *)
Lemma cmd_sync_reconcile env fs m :
  marketplace fs = Some m →
  let rp := reconcile env DirectoryLink (plugin_candidates env m)
              (mkdir (bridge_plugins fs)) in
  let rw := reconcile env FileLink (workflow_candidates env m)
              (mkdir (global_workflows fs)) in
  (cmd_sync env fs).1
    = {| marketplace := Some m;
         bridge_plugins := Some (o_listing rp);
         global_workflows := Some (o_listing rw) |}
  ∧ summary (cmd_sync env fs).2 = Some (o_counts rp, o_counts rw)
  ∧ count_msgs is_link_failure (cmd_sync env fs).2
    = o_link_failures rp + o_link_failures rw
  ∧ count_msgs is_remove_failure (cmd_sync env fs).2
    = o_remove_failures rp + o_remove_failures rw.
Proof.
  intros Hm rp rw. unfold cmd_sync. rewrite Hm.
  set (s0 := SyncState _ _ _ _ _ _ _ _ _).
  set (s := foldl (sync_marketplace env) s0 (sorted env m)).
  pose proof (sync_loops_plugins env s0 m) as HP.
  pose proof (sync_loops_workflows env s0 m) as HW.
  pose proof (sync_loops_remove_failures env s0 (sorted env m)) as HR.
  fold s in HP, HW, HR.
  change (plugins_tally s0) with (Tally (mkdir (bridge_plugins fs)) [] 0 0 0) in HP.
  change (workflows_tally s0) with (Tally (mkdir (global_workflows fs)) [] 0 0 0) in HW.
  change (count_msgs is_remove_failure (stdout s0)) with 0 in HR.
  set (lp := sorted env (map_to_list (plugins_listing s))).
  set (lw := sorted env (map_to_list (workflows_listing s))).
  pose proof (foldl_view cleanup_view _ _
                (cleanup_plugin_view env (valid_plugin_names s)) lp
                (plugins_listing s, stdout s, 0)) as HCP.
  pose proof (foldl_inv (λ acc, count_msgs is_dir_link_failure acc.1.2) _
                (λ acc x, cleanup_plugin_count env is_dir_link_failure
                            (valid_plugin_names s) acc x
                            (λ _, eq_refl) (λ _, eq_refl)) lp
                (plugins_listing s, stdout s, 0)) as HDP.
  pose proof (foldl_inv (λ acc, count_msgs is_file_link_failure acc.1.2) _
                (λ acc x, cleanup_plugin_count env is_file_link_failure
                            (valid_plugin_names s) acc x
                            (λ _, eq_refl) (λ _, eq_refl)) lp
                (plugins_listing s, stdout s, 0)) as HFP.
  destruct (foldl (cleanup_plugin env (valid_plugin_names s)) _ lp)
    as [[bp out1] rP].
  pose proof (foldl_view cleanup_view _ _
                (cleanup_workflow_view env (valid_workflow_names s)) lw
                (workflows_listing s, out1, 0)) as HCW.
  pose proof (foldl_inv (λ acc, count_msgs is_dir_link_failure acc.1.2) _
                (λ acc x, cleanup_workflow_count env is_dir_link_failure
                            (valid_workflow_names s) acc x
                            (λ _, eq_refl) (λ _, eq_refl)) lw
                (workflows_listing s, out1, 0)) as HDW.
  pose proof (foldl_inv (λ acc, count_msgs is_file_link_failure acc.1.2) _
                (λ acc x, cleanup_workflow_count env is_file_link_failure
                            (valid_workflow_names s) acc x
                            (λ _, eq_refl) (λ _, eq_refl)) lw
                (workflows_listing s, out1, 0)) as HFW.
  destruct (foldl (cleanup_workflow env (valid_workflow_names s)) _ lw)
    as [[gw out2] rW].
  unfold cleanup_view in HCP, HCW. cbn [fst snd] in *.
  rewrite HR in HCP.
  change (count_msgs is_remove_failure out1)
    with (0 + count_msgs is_remove_failure out1) in HCW.
  rewrite cleanup_all_shift in HCW. cbn zeta in HCW.
  unfold rp, rw. rewrite !reconcile_unfold. cbn zeta.
  rewrite <-HP, <-HW.
  cbn [plugins_tally workflows_tally t_listing t_valid t_linked t_skipped
       t_failed o_listing o_counts o_link_failures o_remove_failures].
  fold lp lw. rewrite <-HCP.
  set (accW := foldl (cleanup_step env FileLink (valid_workflow_names s))
                 (workflows_listing s, 0, 0) lw) in *.
  injection HCW as Hgw HrW HfW. cbn [fst snd].
  rewrite summary_snoc, !count_msgs_snoc_done by done.
  rewrite count_msgs_link_failure, HDW, HFW, HDP, HFP.
  split_and!; [by rewrite Hgw|by rewrite HrW|done|lia].
Qed.

(** Without a marketplace [cmd_sync] prints its notice and stops. *)
Lemma cmd_sync_no_marketplace env fs :
  marketplace fs = None → cmd_sync env fs = (fs, [MBanner; MNoMarketplace]).
Proof. intros Hm. unfold cmd_sync. by rewrite Hm. Qed.

(** * The plugin classifier *)

Lemma elem_of_EXCLUDE_NAMES name :
  name ∈ EXCLUDE_NAMES ↔
  name ∈ [".git"; ".github"; ".claude"; ".claude-plugin"; "node_modules";
          "__pycache__"; ".venv"; "tests"; "test"; "docs"; "doc"; "src";
          "dist"; "build"].
Proof.
  unfold EXCLUDE_NAMES.
  rewrite !elem_of_union, !elem_of_singleton, !elem_of_cons, elem_of_nil.
  tauto.
Qed.

(** C4. [is_plugin_dir] rejects a directory whose base name starts with a
    dot or is one of the excluded names, whatever it contains; any other
    directory is accepted exactly when one of [plugin.json], [skills],
    [hooks], [agents], [commands], [README.md] exists directly inside it. *)
Theorem is_plugin_dir_correct (name : string) (path : snode) :
  (startswith name "." = true ∨ name ∈ EXCLUDE_NAMES →
   is_plugin_dir name path = false)
  ∧ (startswith name "." = false → name ∉ EXCLUDE_NAMES →
     is_plugin_dir name path = true ↔
     ∃ indicator,
       indicator ∈ ["plugin.json"; "skills"; "hooks"; "agents"; "commands";
                    "README.md"]
       ∧ snode_exists (sub path indicator) = true).
Proof.
  unfold is_plugin_dir. split.
  - intros [->|Hex]; [done|].
    by rewrite (bool_decide_eq_true_2 _ Hex), orb_true_r.
  - intros -> Hex. rewrite (bool_decide_eq_false_2 _ Hex). cbv [orb].
    rewrite existsb_exists. unfold PLUGIN_INDICATORS.
    split; intros [i [H1 H2]]; exists i.
    + split; [by apply list_elem_of_In|done].
    + split; [by apply list_elem_of_In|done].
Qed.

Lemma is_plugin_dir_correct_witness :
  is_plugin_dir "tests" (SDir [("plugin.json", SFile)]) = false
  ∧ (is_plugin_dir "demo" (SDir [("plugin.json", SFile)]) = true ↔
     ∃ indicator,
       indicator ∈ ["plugin.json"; "skills"; "hooks"; "agents"; "commands";
                    "README.md"]
       ∧ snode_exists (sub (SDir [("plugin.json", SFile)]) indicator) = true).
Proof.
  split.
  - apply (is_plugin_dir_correct "tests"). right.
    apply elem_of_EXCLUDE_NAMES. rewrite !elem_of_cons. tauto.
  - apply (is_plugin_dir_correct "demo"); [reflexivity|].
    rewrite elem_of_EXCLUDE_NAMES, !elem_of_cons, elem_of_nil.
    intuition discriminate.
Defined.

(** The cases the specification lists. *)
Example plugin_json_only_qualifies :
  is_plugin_dir "demo" (SDir [("plugin.json", SFile)]) = true.
Proof. reflexivity. Qed.

Example git_only_does_not_qualify :
  is_plugin_dir "demo" (SDir [(".git", SDir [])]) = false.
Proof. reflexivity. Qed.

Example tests_never_qualifies :
  is_plugin_dir "tests" (SDir [("plugin.json", SFile); ("skills", SDir [])]) = false.
Proof. reflexivity. Qed.

Example hidden_never_qualifies :
  is_plugin_dir ".hidden" (SDir [("plugin.json", SFile)]) = false.
Proof. reflexivity. Qed.

Example dangling_indicator_does_not_count :
  is_plugin_dir "demo" (SDir [("README.md", SBroken)]) = false.
Proof. reflexivity. Qed.

(** * The link primitives *)

Lemma count_msgs_failure out :
  count_msgs is_failure out
  = count_msgs is_link_failure out + count_msgs is_remove_failure out.
Proof.
  unfold count_msgs. induction out as [|m out IH]; [done|].
  rewrite !filter_cons. destruct m; simpl; rewrite ?IH; lia.
Qed.




(** With the workflows directory of [stale_workflows]: two refused links
    and one refused removal, three failure lines, and the run goes on to
    its summary. *)
Example readonly_stale_run :
  (cmd_sync posix_readonly
     {| marketplace := Some demo_market;
        bridge_plugins := Some ∅;
        global_workflows := Some stale_workflows |}).2
  = [MBanner; MMarketplace "mkt1"; MLinkPlugin "demo";
     MFailLinkDir PermissionError;
     MLinkWorkflow "go.md" "cb__mkt1__demo__go.md";
     MFailLinkFile PermissionError;
     MRemoveWorkflow "cb__old"; MFailRemove OSError;
     MDone {| bridged := 1; new := 0; existing := 0; removed := 0 |}
           {| bridged := 1; new := 0; existing := 0; removed := 0 |}].
Proof. vm_compute. reflexivity. Qed.

(** Two candidates, two refused links, two failure lines, and the run goes
    on to its summary. *)
Example readonly_run :
  (cmd_sync posix_readonly readonly_fs).2
  = [MBanner; MMarketplace "mkt1"; MLinkPlugin "demo";
     MFailLinkDir PermissionError;
     MLinkWorkflow "go.md" "cb__mkt1__demo__go.md";
     MFailLinkFile PermissionError;
     MDone {| bridged := 1; new := 0; existing := 0; removed := 0 |}
           {| bridged := 1; new := 0; existing := 0; removed := 0 |}].
Proof. vm_compute. reflexivity. Qed.

(** * Removal *)

(** C8. [remove_link] never deletes the contents of a directory: on a real,
    non-empty directory the attempt fails, the answer is [False] and the
    directory is untouched, whichever branch is taken.  A symbolic link, a
    junction (on Windows), a plain file and an empty directory are removed,
    and nothing else with them, unless the call fails for an outside
    reason. *)
Theorem remove_link_safe (env : platform) (root name : string)
    (d : gmap string dnode) :
  (∀ (w : bool) (contents : list string),
     d !! name = Some (DDir contents) → contents ≠ [] →
     ∃ e, remove_link env root name w d = (false, d, [MFailRemove e]))
  ∧ (∀ n,
       d !! name = Some n → removable_kind env n = true →
       fault env (sys_rmdir (root </> name)) = None →
       fault env (sys_remove (root </> name)) = None →
       remove_link env root name (is_windows env) d
       = (true, delete name d, [])).
Proof.
  split.
  - intros w contents Hd Hne.
    unfold remove_link, os_rmdir, os_remove, run_syscall. rewrite Hd.
    destruct contents as [|x contents]; [done|]. simpl.
    destruct w; simpl; destruct (fault env _); simpl; eauto.
  - intros n Hd Hk Hf1 Hf2. rewrite remove_link_effect.
    unfold remove_effect. rewrite Hd, Hf1, Hf2.
    unfold removable_kind in Hk.
    destruct n as [|[|x contents]|[] target [[]|]]; try done;
      destruct (is_windows env); try done.
Qed.

Lemma remove_link_safe_witness :
  (∃ e, remove_link posix "/w" "cb__old" false stale_workflows
        = (false, stale_workflows, [MFailRemove e]))
  ∧ remove_link posix "/w" "notes.md" (is_windows posix) stale_workflows
    = (true, delete "notes.md" stale_workflows, []).
Proof.
  split.
  - apply (proj1 (remove_link_safe posix "/w" "cb__old" stale_workflows)
             false ["keep.txt"]); [reflexivity|discriminate].
  - apply (proj2 (remove_link_safe posix "/w" "notes.md" stale_workflows) DFile);
      reflexivity.
Defined.

(** The same on Windows, for a junction whose target is gone. *)
Example remove_dangling_junction :
  remove_link windows "/b" "mkt__old" true
    {[ "mkt__old" := DLink Junction "C:/gone" None ]}
  = (true, ∅, []).
Proof. vm_compute. reflexivity. Qed.

(** * A missing marketplace *)

(** C9. When the marketplace root does not exist, [cmd_sync] prints its
    notice and returns: the file system is what it was, so no destination
    directory is created, no link is made and no stale link is removed. *)
Theorem sync_without_marketplace (env : platform) (fs : filesystem) :
  marketplace fs = None →
  cmd_sync env fs = (fs, [MBanner; MNoMarketplace]).
Proof. apply cmd_sync_no_marketplace. Qed.

Lemma sync_without_marketplace_witness :
  cmd_sync posix orphaned_fs = (orphaned_fs, [MBanner; MNoMarketplace])
  ∧ cmd_sync posix {| marketplace := None; bridge_plugins := None;
                      global_workflows := None |}
    = ({| marketplace := None; bridge_plugins := None;
          global_workflows := None |}, [MBanner; MNoMarketplace]).
Proof.
  split; apply sync_without_marketplace; reflexivity.
Defined.

(** * The resolver *)

Lemma is_component_not_dot query :
  is_component query = true → bool_decide (query ∈ [""; "."]) = false.
Proof.
  unfold is_component. rewrite !andb_true_iff, negb_true_iff.
  intros [[[Hq _] _] _]. apply bool_decide_eq_false in Hq.
  apply bool_decide_eq_false. intros Hin. apply Hq.
  apply elem_of_cons in Hin as [->|Hin]; [left|].
  apply list_elem_of_singleton in Hin as ->. right; left.
Qed.

Lemma resolved_name_same env name : resolved_name env name name = name.
Proof. unfold resolved_name. by destruct (is_windows env). Qed.

Section resolver.
Context (env : platform) (root : string) (d : gmap string dnode)
  (query : string).
Hypothesis Hquery : bool_decide (query ∈ [""; "."]) = false.

Local Abbreviation candidates :=
  (filter (λ p : string * dnode, contains query p.1 = true) (map_to_list d)).

Lemma elem_of_candidates k x :
  (k, x) ∈ candidates ↔ d !! k = Some x ∧ contains query k = true.
Proof. rewrite list_elem_of_filter, elem_of_map_to_list. simpl. tauto. Qed.

Lemma candidates_NoDup : NoDup candidates.*1.
Proof.
  eapply sublist_NoDup; [apply (NoDup_fst_map_to_list d)|].
  apply fmap_sublist, sublist_filter.
Qed.

Lemma elem_of_candidate_names k :
  k ∈ candidates.*1 ↔ is_Some (d !! k) ∧ contains query k = true.
Proof.
  rewrite list_elem_of_fmap. split.
  - intros [[k' x] [-> [Hx Hc]%elem_of_candidates]]. eauto.
  - intros [[x Hx] Hc]. exists (k, x). split; [done|].
    by apply elem_of_candidates.
Qed.

(** The entry the volume finds under [query] wins when it exists. *)
Lemma resolve_found stored x :
  find_entry env d query = Some (stored, x) →
  path_exists (Some x) = true →
  resolve_plugin env root (Some d) query
  = Resolved (realpath root (resolved_name env query stored) (Some x)).
Proof.
  intros Hf Hx. unfold resolve_plugin.
  rewrite Hquery. simpl. rewrite Hf. simpl in *.
  by rewrite Hx.
Qed.

Lemma resolve_exact :
  path_exists (d !! query) = true →
  resolve_plugin env root (Some d) query
  = Resolved (realpath root query (d !! query)).
Proof.
  intros H. destruct (d !! query) as [x|] eqn:Hx; [|done].
  rewrite (resolve_found query x), ?resolved_name_same;
    [done|by apply find_entry_exact|done].
Qed.

Lemma resolve_search :
  path_exists (found env d query) = false →
  resolve_plugin env root (Some d) query =
    match candidates with
    | [p] => Resolved (realpath root p.1 (Some p.2))
    | [] => NotFound
    | _ => Ambiguous (candidates.*1)
    end.
Proof.
  intros H. unfold resolve_plugin. rewrite Hquery.
  simpl. fold (found env d query). by rewrite H.
Qed.

Lemma resolve_unique n :
  path_exists (found env d query) = false →
  (∀ k, is_Some (d !! k) ∧ contains query k = true ↔ k = n) →
  resolve_plugin env root (Some d) query
  = Resolved (realpath root n (d !! n)).
Proof.
  intros Hex Hn. rewrite resolve_search by done.
  pose proof candidates_NoDup as Hnd.
  pose proof elem_of_candidate_names as Hel.
  pose proof elem_of_candidates as Hel2.
  destruct candidates as [|[k1 x1] [|[k2 x2] rest]].
  - exfalso. eapply elem_of_nil, Hel, Hn. done.
  - assert (k1 = n) as -> by (apply Hn, Hel; left).
    destruct (Hel2 n x1) as [[-> _] _]; [left|]. done.
  - exfalso. assert (k1 = n) as -> by (apply Hn, Hel; left).
    assert (k2 = n) as -> by (apply Hn, Hel; right; left).
    apply NoDup_cons in Hnd as [Hnd _]. apply Hnd. left.
Qed.

Lemma resolve_none :
  path_exists (found env d query) = false →
  (∀ k, is_Some (d !! k) → contains query k = false) →
  resolve_plugin env root (Some d) query = NotFound.
Proof.
  intros Hex Hn. rewrite resolve_search by done.
  pose proof elem_of_candidate_names as Hel.
  destruct candidates as [|[k1 x1] rest]; [done|]. exfalso.
  destruct (Hel k1) as [[Hs Hc] _]; [left|].
  rewrite Hn in Hc; done.
Qed.

Lemma resolve_many n1 n2 :
  path_exists (found env d query) = false →
  n1 ≠ n2 →
  is_Some (d !! n1) → contains query n1 = true →
  is_Some (d !! n2) → contains query n2 = true →
  ∃ l, resolve_plugin env root (Some d) query = Ambiguous l
       ∧ NoDup l
       ∧ ∀ k, k ∈ l ↔ is_Some (d !! k) ∧ contains query k = true.
Proof.
  intros Hex Hne H1 Hc1 H2 Hc2. rewrite resolve_search by done.
  exists (candidates.*1).
  split; [|split; [apply candidates_NoDup|apply elem_of_candidate_names]].
  pose proof elem_of_candidate_names as Hel.
  destruct candidates as [|[k1 x1] [|[k2 x2] rest]]; [| |done]; exfalso.
  - eapply elem_of_nil, Hel. done.
  - assert (n1 = k1) as ->.
    { apply list_elem_of_singleton. apply (Hel n1). done. }
    apply Hne. symmetry. apply list_elem_of_singleton. apply (Hel n2). done.
Qed.
End resolver.

(** C6. [resolve_plugin] returns the entry [root / query] at once when it
    exists, be it stored under that very name or, on a volume that does not
    tell the two apart, under another spelling of it; otherwise it looks at
    the entries whose name contains [query]: exactly one resolves to that
    entry, none ends as not found, and more than one ends as ambiguous, with
    every matching name listed.  The path returned is the entry's resolved
    path. *)
Theorem resolve_plugin_disambiguation (env : platform) (root : string)
    (d : gmap string dnode) (query : string) :
  is_component query = true →
  (path_exists (d !! query) = true →
   resolve_plugin env root (Some d) query
   = Resolved (realpath root query (d !! query)))
  ∧ (∀ stored x,
       find_entry env d query = Some (stored, x) →
       path_exists (Some x) = true →
       resolve_plugin env root (Some d) query
       = Resolved (realpath root (resolved_name env query stored) (Some x)))
  ∧ (path_exists (found env d query) = false →
     (∀ n, (∀ k, is_Some (d !! k) ∧ contains query k = true ↔ k = n) →
           resolve_plugin env root (Some d) query
           = Resolved (realpath root n (d !! n)))
     ∧ ((∀ k, is_Some (d !! k) → contains query k = false) →
        resolve_plugin env root (Some d) query = NotFound)
     ∧ (∀ n1 n2, n1 ≠ n2 →
          is_Some (d !! n1) → contains query n1 = true →
          is_Some (d !! n2) → contains query n2 = true →
          ∃ l, resolve_plugin env root (Some d) query = Ambiguous l
               ∧ NoDup l
               ∧ ∀ k, k ∈ l ↔ is_Some (d !! k) ∧ contains query k = true)).
Proof.
  intros Hq%is_component_not_dot. split_and!.
  - by apply resolve_exact.
  - intros stored x. by apply resolve_found.
  - intros Hex. split_and!.
    + intros n. by apply resolve_unique.
    + by apply resolve_none.
    + intros n1 n2. by apply resolve_many.
Qed.

Lemma resolve_plugin_disambiguation_witness :
  resolve_plugin posix "/b" (Some two_x) "alpha__x" = Resolved "/src/alpha/x"
  ∧ resolve_plugin posix "/b" (Some two_x) "zzz" = NotFound
  ∧ ∃ l, resolve_plugin posix "/b" (Some two_x) "x" = Ambiguous l
         ∧ NoDup l
         ∧ ∀ k, k ∈ l ↔ is_Some (two_x !! k) ∧ contains "x" k = true.
Proof.
  split_and!.
  - apply (proj1 (resolve_plugin_disambiguation posix "/b" two_x "alpha__x"
                    eq_refl)).
    reflexivity.
  - apply (proj2 (proj2 (resolve_plugin_disambiguation posix "/b" two_x "zzz"
                           eq_refl)));
      [reflexivity|].
    intros k [x Hx]. unfold two_x in Hx.
    apply lookup_insert_Some in Hx as [[<- _]|[_ Hx]]; [reflexivity|].
    apply lookup_singleton_Some in Hx as [<- _]. reflexivity.
  - apply (proj2 (proj2 (resolve_plugin_disambiguation posix "/b" two_x "x"
                           eq_refl)))
      with (n1 := "alpha__x") (n2 := "beta__x");
      [reflexivity|discriminate|by eexists|reflexivity|by eexists|reflexivity].
Defined.

Example resolve_two_x :
  resolve_plugin posix "/b" (Some two_x) "x" = Ambiguous ["alpha__x"; "beta__x"].
Proof. vm_compute. reflexivity. Qed.

(** Without the directory the listing raises. *)
Example resolve_missing_directory :
  resolve_plugin posix "/b" None "x" = Raised FileNotFoundError.
Proof. reflexivity. Qed.

(** On a case-insensitive volume another spelling of an entry's name is an
    exact match; where names are told apart it is not, and nothing contains
    it. *)
Example resolve_other_spelling :
  resolve_plugin macos "/b" (bridge_plugins renamed_fs) "mkt__demo"
  = Resolved "/Users/u/.claude/plugins/marketplaces/Mkt/Demo"
  ∧ resolve_plugin posix "/b" (bridge_plugins renamed_fs) "mkt__demo" = NotFound.
Proof. split; vm_compute; reflexivity. Qed.

(** With the empty name or a dot the path is the directory itself. *)
Example resolve_directory_itself :
  resolve_plugin posix "/b" (Some two_x) "." = Resolved "/b"
  ∧ resolve_plugin posix "/b" (Some two_x) "" = Resolved "/b".
Proof. split; reflexivity. Qed.

(** C10. The exact-match test of [resolve_plugin] follows links, so a
    dangling symbolic link called exactly [query] is not an exact match: the
    search by substring decides.  The link's own name matches there, so it
    is taken when it is the only match, and with any other matching entry
    the call ends as ambiguous although an entry called [query] is there. *)
Theorem resolve_plugin_dangling_exact (env : platform) (root : string)
    (d : gmap string dnode) (query target : string) :
  is_component query = true →
  d !! query = Some (DLink Symbolic target None) →
  path_exists (d !! query) = false
  ∧ ((∀ k, is_Some (d !! k) → contains query k = true → k = query) →
     resolve_plugin env root (Some d) query = Resolved target)
  ∧ (∀ other, other ≠ query → is_Some (d !! other) →
       contains query other = true →
       ∃ l, resolve_plugin env root (Some d) query = Ambiguous l
            ∧ query ∈ l ∧ other ∈ l).
Proof.
  intros Hc%is_component_not_dot Hq.
  assert (path_exists (d !! query) = false) as Hex' by by rewrite Hq.
  assert (path_exists (found env d query) = false) as Hex
    by by rewrite (found_exact _ _ _ _ Hq).
  split_and!; [done| |].
  - intros Honly.
    rewrite (resolve_unique env root d query Hc query Hex), Hq; [done|].
    intros k. split; [intros [??]; by apply Honly|intros ->].
    split; [by rewrite Hq|apply contains_refl].
  - intros other Hne Hsome Hco.
    destruct (resolve_many env root d query Hc query other Hex)
      as (l & Hl & _ & Hin);
      [done|by rewrite Hq|apply contains_refl|done..|].
    exists l. split; [done|]. split; apply Hin.
    + split; [by rewrite Hq|apply contains_refl].
    + done.
Qed.

Lemma resolve_plugin_dangling_exact_witness :
  path_exists (dangling_bridge !! "x") = false
  ∧ ((∀ k, is_Some (dangling_bridge !! k) → contains "x" k = true → k = "x") →
     resolve_plugin posix "/b" (Some dangling_bridge) "x" = Resolved "/gone/x")
  ∧ (∀ other, other ≠ "x" → is_Some (dangling_bridge !! other) →
       contains "x" other = true →
       ∃ l, resolve_plugin posix "/b" (Some dangling_bridge) "x" = Ambiguous l
            ∧ "x" ∈ l ∧ other ∈ l).
Proof.
  apply (resolve_plugin_dangling_exact posix "/b" dangling_bridge "x" "/gone/x");
    reflexivity.
Defined.

Example resolve_dangling_exact_ambiguous :
  resolve_plugin posix "/b" (Some dangling_bridge) "x"
  = Ambiguous ["alpha__x"; "x"].
Proof. vm_compute. reflexivity. Qed.

(** With a live link in the same place the exact match wins. *)
Example resolve_live_exact :
  resolve_plugin posix "/b"
    (Some (<["x" := DLink Symbolic "/src/x" (Some KDir)]> dangling_bridge)) "x"
  = Resolved "/src/x".
Proof. vm_compute. reflexivity. Qed.

(** * The scan *)

Lemma elem_of_plugins_of env mp_dir plugin_dir :
  plugin_dir ∈ plugins_of env mp_dir ↔
  snode_is_dir mp_dir.2 = true ∧ startswith mp_dir.1 "." = false
  ∧ plugin_dir ∈ iterdir (plugin_base_of env mp_dir).2
  ∧ snode_is_dir plugin_dir.2 = true
  ∧ is_plugin_dir plugin_dir.1 plugin_dir.2 = true.
Proof.
  unfold plugins_of.
  destruct (snode_is_dir mp_dir.2), (startswith mp_dir.1 "."); simpl;
    rewrite ?elem_of_nil; try (split; [done|by intros (? & ? & _)]).
  rewrite list_elem_of_filter, elem_of_sorted, andb_True, !Is_true_true.
  tauto.
Qed.

Lemma elem_of_plugin_candidates env m c :
  c ∈ plugin_candidates env m ↔
  ∃ mp_dir plugin_dir,
    mp_dir ∈ m ∧ plugin_dir ∈ plugins_of env mp_dir
    ∧ c = plugin_candidate env mp_dir plugin_dir.
Proof.
  unfold plugin_candidates. rewrite list_elem_of_bind. split.
  - intros (mp_dir & (plugin_dir & Hc & Hp)%list_elem_of_bind & Hm).
    apply list_elem_of_singleton in Hc. apply elem_of_sorted in Hm. eauto.
  - intros (mp_dir & plugin_dir & Hm & Hp & ->). exists mp_dir.
    rewrite elem_of_sorted, list_elem_of_bind. split; [|done].
    exists plugin_dir. by rewrite list_elem_of_singleton.
Qed.

Lemma elem_of_workflow_candidates env m c :
  c ∈ workflow_candidates env m ↔
  ∃ mp_dir plugin_dir cmd_file,
    mp_dir ∈ m ∧ plugin_dir ∈ plugins_of env mp_dir
    ∧ cmd_file ∈ commands_of env plugin_dir
    ∧ c = workflow_candidate env mp_dir plugin_dir cmd_file.
Proof.
  unfold workflow_candidates. rewrite list_elem_of_bind. split.
  - intros (mp_dir & (plugin_dir & (cmd_file & Hc & Hf)%list_elem_of_bind & Hp)
                       %list_elem_of_bind & Hm).
    apply list_elem_of_singleton in Hc. apply elem_of_sorted in Hm.
    by exists mp_dir, plugin_dir, cmd_file.
  - intros (mp_dir & plugin_dir & cmd_file & Hm & Hp & Hf & ->). exists mp_dir.
    rewrite elem_of_sorted, list_elem_of_bind. split; [|done].
    exists plugin_dir. rewrite list_elem_of_bind. split; [|done].
    exists cmd_file. by rewrite list_elem_of_singleton.
Qed.

Lemma plugin_base_of_node env mp_dir :
  (plugin_base_of env mp_dir).2
  = if snode_is_dir (sub mp_dir.2 "plugins") then sub mp_dir.2 "plugins"
    else mp_dir.2.
Proof. unfold plugin_base_of. by destruct (snode_is_dir _). Qed.

(** The names of the plugin candidates are the canonical identifiers of the
    plugin sources. *)
Lemma plugin_candidate_names env m name :
  name ∈ c_name <$> plugin_candidates env m ↔
  ∃ mp_name plugin_name,
    is_plugin_source m mp_name plugin_name
    ∧ name = mp_name +:+ "__" +:+ plugin_name.
Proof.
  rewrite list_elem_of_fmap. split.
  - intros (c & -> & Hc). apply elem_of_plugin_candidates in Hc
      as ([mp_name mp_node] & [plugin_name plugin_node] & Hm & Hp & ->).
    apply elem_of_plugins_of in Hp as (H1 & H2 & H3 & H4 & H5).
    rewrite plugin_base_of_node in H3.
    exists mp_name, plugin_name. split; [|done].
    by exists mp_node, plugin_node.
  - intros (mp_name & plugin_name & (mp_node & plugin_node & Hm & H1 & H2 & H3
                                       & H4 & H5) & ->).
    exists (plugin_candidate env (mp_name, mp_node) (plugin_name, plugin_node)).
    split; [done|]. apply elem_of_plugin_candidates.
    exists (mp_name, mp_node), (plugin_name, plugin_node).
    split_and!; [done| |done]. apply elem_of_plugins_of.
    by rewrite plugin_base_of_node.
Qed.

(** Every workflow candidate carries the ownership prefix. *)
Lemma workflow_candidates_owned env m c :
  c ∈ workflow_candidates env m → owned FileLink (c_name c) = true.
Proof.
  intros (mp_dir & plugin_dir & cmd_file & _ & _ & _ & ->)
    %elem_of_workflow_candidates.
  apply startswith_app.
Qed.

(** What the link primitives create passes the presence test. *)
Lemma visible_file env c : visible env FileLink c.
Proof.
  intros o. unfold link_effect, mklink_entry, symlink_entry.
  destruct (c_res c) as [[]|]; repeat case_match; intros [= <-]; done.
Qed.

Lemma visible_directory env c :
  c_res c = Some KDir → visible env DirectoryLink c.
Proof.
  intros Hres o. unfold link_effect, mklink_entry, symlink_entry. rewrite Hres.
  repeat case_match; intros [= <-]; done.
Qed.

Lemma plugin_candidates_visible env m :
  Forall (visible env DirectoryLink) (plugin_candidates env m).
Proof.
  apply Forall_forall. intros c (mp_dir & plugin_dir & _ & Hp & ->)
    %elem_of_plugin_candidates.
  apply visible_directory. simpl.
  apply elem_of_plugins_of in Hp as (_ & _ & _ & Hd & _).
  by destruct plugin_dir.2.
Qed.

Lemma workflow_candidates_visible env m :
  Forall (visible env FileLink) (workflow_candidates env m).
Proof. apply Forall_forall. intros c _. apply visible_file. Qed.

(** * Convergence *)

(** After a [sync] on an existing marketplace in which no link creation and
    no removal failed, the names in the bridge-plugins directory are exactly
    the canonical identifiers [marketplace__plugin] of the current plugin
    sources, whatever the directory held before, provided the volume tells
    the names of the identifiers and of the entries apart. *)
Lemma sync_converges env fs m :
  marketplace fs = Some m →
  names_told_apart env (plugin_candidates env m) (mkdir (bridge_plugins fs)) →
  count_msgs is_failure (cmd_sync env fs).2 = 0 →
  ∃ d, bridge_plugins (cmd_sync env fs).1 = Some d
       ∧ ∀ name, name ∈ dom d ↔
           ∃ mp_name plugin_name,
             is_plugin_source m mp_name plugin_name
             ∧ name = mp_name +:+ "__" +:+ plugin_name.
Proof.
  intros Hm Ht Hf.
  destruct (cmd_sync_reconcile env fs m Hm) as (Hfs & _ & Hl & Hr).
  rewrite count_msgs_failure, Hl, Hr in Hf.
  eexists. split; [by rewrite Hfs|].
  intros name. rewrite elem_of_dom, <-plugin_candidate_names.
  apply reconcile_converge_told_apart;
    [done|apply plugin_candidates_visible|lia|lia|done].
Qed.

(** A stale link is removed and the link of the plugin is made. *)
Example sync_converges_stale :
  bridge_plugins
    (cmd_sync posix {| marketplace := Some demo_market;
                       bridge_plugins :=
                         Some {[ "mkt1__old" := DLink Symbolic "/gone" None ]};
                       global_workflows := None |}).1
  = Some {[ "mkt1__demo" :=
              DLink Symbolic "/home/u/.claude/plugins/marketplaces/mkt1/demo"
                (Some KDir) ]}.
Proof. vm_compute. reflexivity. Qed.

Lemma renamed_is_plugin_source : is_plugin_source renamed_market "Mkt" "demo".
Proof.
  eexists _, _. split_and!; [by left|done|done|by left|done|done].
Qed.

(** C2. On a volume that does not tell [Mkt__Demo] and [Mkt__demo] apart,
    a run after the plugin directory was renamed from [Demo] to [demo]
    finds the old link under the new name, counts the plugin as bridged and
    in place, and then removes that very link as stale, its name not being
    the new identifier: no failure is printed, the summary says one plugin
    is bridged, and the bridge-plugins directory is empty.  Only the next
    run makes the link.  On a volume that tells the names apart one run
    does it. *)
Theorem sync_drops_renamed_plugin :
  is_plugin_source renamed_market "Mkt" "demo"
  ∧ (cmd_sync macos renamed_fs).2
    = [MBanner; MMarketplace "Mkt"; MRemovePlugin "Mkt__Demo";
       MDone {| bridged := 1; new := 0; existing := 1; removed := 1 |}
             {| bridged := 0; new := 0; existing := 0; removed := 0 |}]
  ∧ count_msgs is_failure (cmd_sync macos renamed_fs).2 = 0
  ∧ bridge_plugins (cmd_sync macos renamed_fs).1 = Some ∅
  ∧ bridge_plugins (cmd_sync macos (cmd_sync macos renamed_fs).1).1
    = Some {[ "Mkt__demo" :=
                DLink Symbolic "/Users/u/.claude/plugins/marketplaces/Mkt/demo"
                  (Some KDir) ]}
  ∧ bridge_plugins (cmd_sync posix renamed_fs).1
    = Some {[ "Mkt__demo" :=
                DLink Symbolic "/home/u/.claude/plugins/marketplaces/Mkt/demo"
                  (Some KDir) ]}.
Proof.
  split; [apply renamed_is_plugin_source|].
  split_and!; vm_compute; reflexivity.
Qed.

(** The same on Windows, with a junction. *)
Example sync_drops_renamed_plugin_windows :
  bridge_plugins
    (cmd_sync windows
       {| marketplace := Some renamed_market;
          bridge_plugins :=
            Some {[ "Mkt__Demo" :=
                      DLink Junction
                        "C:/Users/u/.claude/plugins/marketplaces/Mkt/Demo"
                        (Some KDir) ]};
          global_workflows := Some ∅ |}).1
  = Some ∅.
Proof. vm_compute. reflexivity. Qed.

(** Convergence of the workflows directory, on the names with the prefix. *)
Lemma sync_converges_workflows env fs m :
  marketplace fs = Some m →
  names_told_apart env (workflow_candidates env m) (mkdir (global_workflows fs)) →
  count_msgs is_failure (cmd_sync env fs).2 = 0 →
  ∃ d, global_workflows (cmd_sync env fs).1 = Some d
       ∧ ∀ name, startswith name "cb__" = true →
           name ∈ dom d ↔ name ∈ c_name <$> workflow_candidates env m.
Proof.
  intros Hm Ht Hf.
  destruct (cmd_sync_reconcile env fs m Hm) as (Hfs & _ & Hl & Hr).
  rewrite count_msgs_failure, Hl, Hr in Hf.
  eexists. split; [by rewrite Hfs|].
  intros name Hown. rewrite elem_of_dom.
  apply reconcile_converge_told_apart;
    [done|apply workflow_candidates_visible|lia|lia|done].
Qed.

(** * Idempotence *)

(** C1, as stated, fails: where the destination directories are not
    writable no link is created, and the second run finds none of its
    candidates in place. *)
Lemma sync_idempotent_counterexample :
  ¬ sync_idempotent posix_readonly readonly_fs.
Proof.
  intros (p & w & Hs & _ & _ & _ & _ & Hp & _).
  vm_compute in Hs. injection Hs as <- <-. discriminate Hp.
Qed.

(** C1, amended. Where the volume tells the names of the identifiers and of
    the destination entries apart, running [sync] a second time with the
    marketplace and the platform conditions unchanged creates nothing and
    removes nothing, and leaves both destination directories exactly as the
    first run left them; when no link creation failed in the first run, the
    second finds every candidate already present.  Of names that differ
    only in a way the volume ignores nothing is said here. *)
Theorem sync_twice (env : platform) (fs : filesystem)
    (m : list (string * snode)) :
  marketplace fs = Some m →
  names_told_apart env (plugin_candidates env m) (mkdir (bridge_plugins fs)) →
  names_told_apart env (workflow_candidates env m)
    (mkdir (global_workflows fs)) →
  let run1 := cmd_sync env fs in
  let run2 := cmd_sync env run1.1 in
  run2.1 = run1.1
  ∧ ∃ p w, summary run2.2 = Some (p, w)
      ∧ new p = 0 ∧ removed p = 0 ∧ new w = 0 ∧ removed w = 0
      ∧ (count_msgs is_link_failure run1.2 = 0 →
         existing p = bridged p ∧ existing w = bridged w).
Proof.
  intros Hm Htp Htw run1 run2.
  destruct (cmd_sync_reconcile env fs m Hm) as (Hfs1 & _ & Hl1 & _).
  fold run1 in Hfs1, Hl1.
  assert (marketplace run1.1 = Some m) as Hm1 by by rewrite Hfs1.
  destruct (cmd_sync_reconcile env run1.1 m Hm1) as (Hfs2 & Hs2 & _ & _).
  fold run2 in Hfs2, Hs2. rewrite Hfs1 in Hfs2, Hs2. simpl in Hfs2, Hs2.
  destruct (reconcile_idem_told_apart env DirectoryLink
              (plugin_candidates env m) (mkdir (bridge_plugins fs)) Htp)
    as (Hp1 & Hp2 & Hp3).
  destruct (reconcile_idem_told_apart env FileLink
              (workflow_candidates env m) (mkdir (global_workflows fs)) Htw)
    as (Hw1 & Hw2 & Hw3).
  split.
  - by rewrite Hfs2, Hfs1, Hp1, Hw1.
  - eexists _, _. split; [exact Hs2|]. split_and!; [done..|].
    intros Hl. rewrite Hl1 in Hl. rewrite !reconcile_bridged.
    split.
    + apply reconcile_idem_present_told_apart;
        [done|apply plugin_candidates_visible|lia].
    + apply reconcile_idem_present_told_apart;
        [done|apply workflow_candidates_visible|lia].
Qed.

Lemma sync_twice_witness :
  let run1 := cmd_sync macos stale_demo_fs in
  let run2 := cmd_sync macos run1.1 in
  run2.1 = run1.1
  ∧ ∃ p w, summary run2.2 = Some (p, w)
      ∧ new p = 0 ∧ removed p = 0 ∧ new w = 0 ∧ removed w = 0
      ∧ (count_msgs is_link_failure run1.2 = 0 →
         existing p = bridged p ∧ existing w = bridged w).
Proof.
  apply (sync_twice macos stale_demo_fs demo_market).
  - reflexivity.
  - apply names_told_apart_NoDup, (bool_decide_unpack _). vm_compute.
    reflexivity.
  - apply names_told_apart_NoDup, (bool_decide_unpack _). vm_compute.
    reflexivity.
Defined.

(** On the volume of [renamed_fs] the names are not told apart, and the
    second run creates a link. *)
Example renamed_second_run :
  ¬ names_told_apart macos (plugin_candidates macos renamed_market)
      (mkdir (bridge_plugins renamed_fs))
  ∧ summary (cmd_sync macos (cmd_sync macos renamed_fs).1).2
    = Some ({| bridged := 1; new := 1; existing := 0; removed := 0 |},
            {| bridged := 0; new := 0; existing := 0; removed := 0 |}).
Proof.
  split; [|vm_compute; reflexivity].
  intros Ht. specialize (Ht "Mkt__demo" "Mkt__Demo").
  assert ("Mkt__demo" = "Mkt__Demo") as Heq; [|discriminate Heq].
  apply Ht; [left|right|reflexivity].
  - vm_compute. left.
  - by eexists.
Qed.

(** The end-to-end scenario: the first run links the plugin and its command
    file, the second finds both in place. *)
Example demo_first_run :
  summary (cmd_sync posix demo_fs).2
  = Some ({| bridged := 1; new := 1; existing := 0; removed := 0 |},
          {| bridged := 1; new := 1; existing := 0; removed := 0 |}).
Proof. vm_compute. reflexivity. Qed.

Example demo_second_run :
  summary (cmd_sync posix (cmd_sync posix demo_fs).1).2
  = Some ({| bridged := 1; new := 0; existing := 1; removed := 0 |},
          {| bridged := 1; new := 0; existing := 1; removed := 0 |}).
Proof. vm_compute. reflexivity. Qed.

(** With [commands/go.md] deleted, the next run removes the workflow link
    and leaves the plugin link. *)
Example demo_command_deleted :
  summary (cmd_sync posix
             {| marketplace :=
                  Some [("mkt1", SDir [("demo", SDir [("plugin.json", SFile);
                                                      ("commands", SDir [])])])];
                bridge_plugins := bridge_plugins (cmd_sync posix demo_fs).1;
                global_workflows := global_workflows (cmd_sync posix demo_fs).1
             |}).2
  = Some ({| bridged := 1; new := 0; existing := 1; removed := 0 |},
          {| bridged := 0; new := 0; existing := 0; removed := 1 |}).
Proof. vm_compute. reflexivity. Qed.

(** On Windows a junction whose target is gone is neither seen by the
    presence test nor replaced: every run reports the same failure. *)
Example dangling_junction_stays :
  cmd_sync windows moved_fs
  = (moved_fs,
     [MBanner; MMarketplace "mkt1"; MLinkPlugin "demo";
      MFailLinkDir CalledProcessError;
      MDone {| bridged := 1; new := 0; existing := 0; removed := 0 |}
            {| bridged := 0; new := 0; existing := 0; removed := 0 |}]).
Proof. vm_compute. reflexivity. Qed.

(** * Cleanup scoping *)

Lemma mkdir_lookup fs name :
  mkdir (global_workflows fs) !! name = workflow_entry fs name.
Proof. unfold workflow_entry, mkdir. by destruct (global_workflows fs). Qed.

(** One run leaves every entry without the prefix as it is. *)
Lemma sync_frame env fs name :
  startswith name "cb__" = false →
  workflow_entry (cmd_sync env fs).1 name = workflow_entry fs name.
Proof.
  intros Hn. destruct (marketplace fs) as [m|] eqn:Hm.
  - destruct (cmd_sync_reconcile env fs m Hm) as (-> & _).
    unfold workflow_entry at 1. simpl. rewrite <-mkdir_lookup.
    apply reconcile_frame; [|done].
    intros c. apply workflow_candidates_owned.
  - by rewrite cmd_sync_no_marketplace.
Qed.

Lemma sync_runs_frame runs fs name :
  startswith name "cb__" = false →
  workflow_entry (sync_runs runs fs) name = workflow_entry fs name.
Proof.
  intros Hn. unfold sync_runs. revert fs.
  induction runs as [|run runs IH]; intros fs; [done|].
  cbn [foldl]. rewrite IH. unfold sync_after. by rewrite sync_frame.
Qed.

(** C3, as stated, fails: a real, non-empty directory carrying the prefix
    is not a current workflow id and is still there after the run. *)
Lemma cleanup_scoped_counterexample : ¬ cleanup_scoped posix stale_fs [].
Proof.
  intros H. destruct (H "cb__old") as [_ H2].
  assert ("cb__old" ∉ c_name <$> workflow_candidates posix []) as Hn.
  { change (workflow_candidates posix []) with (@nil candidate).
    apply not_elem_of_nil. }
  specialize (H2 eq_refl Hn). vm_compute in H2. discriminate H2.
Qed.

(** C3, amended. In the workflows directory an entry whose name does not
    start with [cb__] is never removed or changed, over any number of runs
    and whatever the marketplace becomes in between.  An entry whose name
    starts with [cb__] and is not a current workflow id is handed to
    [remove_link]: after the run it is gone, or [remove_link] fails on it
    and it is as it was. *)
Theorem cleanup_scoping :
  (∀ runs fs name,
     startswith name "cb__" = false →
     workflow_entry (sync_runs runs fs) name = workflow_entry fs name)
  ∧ (∀ env fs m name,
       marketplace fs = Some m →
       startswith name "cb__" = true →
       name ∉ c_name <$> workflow_candidates env m →
       workflow_entry (cmd_sync env fs).1 name = None
       ∨ (workflow_entry (cmd_sync env fs).1 name = workflow_entry fs name
          ∧ ∀ gw, global_workflows (cmd_sync env fs).1 = Some gw →
              ∃ e, remove_link env (get_global_workflows_dir env) name
                     (is_windows env) gw
                   = (false, gw, [MFailRemove e]))).
Proof.
  split; [apply sync_runs_frame|].
  intros env fs m name Hm Hown Hn.
  destruct (cmd_sync_reconcile env fs m Hm) as (-> & _).
  unfold workflow_entry at 1 2. simpl. rewrite <-mkdir_lookup.
  destruct (reconcile_obsolete env FileLink (workflow_candidates env m)
              (mkdir (global_workflows fs)) name Hown Hn) as [Hgone|[Hsame Hfail]];
    [by left|right].
  split; [done|]. intros gw [= <-]. rewrite remove_link_effect, Hsame.
  simpl in Hfail. destruct (remove_effect _ _ _ _); [eauto|done].
Qed.

Lemma cleanup_scoping_witness :
  workflow_entry (sync_runs [(posix, Some demo_market); (windows, None);
                             (posix, Some [])] stale_fs) "notes.md"
  = workflow_entry stale_fs "notes.md"
  ∧ (workflow_entry (cmd_sync posix stale_fs).1 "cb__old" = None
     ∨ (workflow_entry (cmd_sync posix stale_fs).1 "cb__old"
        = workflow_entry stale_fs "cb__old"
        ∧ ∀ gw, global_workflows (cmd_sync posix stale_fs).1 = Some gw →
            ∃ e, remove_link posix (get_global_workflows_dir posix) "cb__old"
                   (is_windows posix) gw
                 = (false, gw, [MFailRemove e]))).
Proof.
  split.
  - apply (proj1 cleanup_scoping). reflexivity.
  - apply (proj2 cleanup_scoping posix stale_fs []); [reflexivity..|].
    change (workflow_candidates posix []) with (@nil candidate).
    apply not_elem_of_nil.
Defined.

(** A stale link with the prefix is removed; the foreign file next to it
    stays. *)
Example stale_link_removed :
  global_workflows
    (cmd_sync posix
       {| marketplace := Some [];
          bridge_plugins := None;
          global_workflows :=
            Some {[ "notes.md" := DFile;
                    "cb__mkt1__demo__go.md" := DLink Symbolic "/gone/go.md" None ]}
       |}).1
  = Some {[ "notes.md" := DFile ]}.
Proof. vm_compute. reflexivity. Qed.

(** * Scan order *)

Lemma StronglySorted_filter {A} (R : relation A) (P : A → Prop)
    `{∀ x, Decision (P x)} l :
  StronglySorted R l → StronglySorted R (filter P l).
Proof.
  induction 1 as [|x l Hs IH Hx]; [constructor|].
  rewrite filter_cons. case_decide; [|done].
  constructor; [done|]. apply Forall_forall. intros y [_ Hy]%list_elem_of_filter.
  revert y Hy. by apply Forall_forall.
Qed.

(** Marketplace entries and plugin directories are visited in sorted order;
    command files in the order of the directory listing. *)
Lemma scan_order env m :
  StronglySorted (@path_le env snode) (sorted env m)
  ∧ (∀ mp_dir, StronglySorted (@path_le env snode) (plugins_of env mp_dir))
  ∧ (∀ plugin_dir,
       snode_is_dir (sub plugin_dir.2 "commands") = true →
       commands_of env plugin_dir
       = filter (λ e, endswith (normcase env e.1) ".md")
           (iterdir (sub plugin_dir.2 "commands"))).
Proof.
  split_and!.
  - apply (StronglySorted_merge_sort (@path_le env snode)).
  - intros mp_dir. unfold plugins_of. destruct (negb _ || _); [constructor|].
    apply StronglySorted_filter, (StronglySorted_merge_sort (@path_le env snode)).
  - intros plugin_dir Hd. unfold commands_of. rewrite Hd.
    by destruct (sub plugin_dir.2 "commands").
Qed.

(** C5. The command files of a plugin are taken in the order of the
    directory listing, not sorted: listed as [b.md], [a.md], they are linked
    in that order. *)
Theorem scan_commands_unsorted :
  c_name <$> workflow_candidates posix unsorted_market
  = ["cb__mkt__demo__b.md"; "cb__mkt__demo__a.md"]
  ∧ (cmd_sync posix unsorted_fs).2
    = [MBanner; MMarketplace "mkt"; MLinkPlugin "demo";
       MLinkWorkflow "b.md" "cb__mkt__demo__b.md";
       MLinkWorkflow "a.md" "cb__mkt__demo__a.md";
       MDone {| bridged := 1; new := 1; existing := 0; removed := 0 |}
             {| bridged := 2; new := 2; existing := 0; removed := 0 |}]
  ∧ ¬ Sorted String.le (c_name <$> workflow_candidates posix unsorted_market).
Proof.
  split_and!; [by vm_compute..|].
  change (c_name <$> workflow_candidates posix unsorted_market)
    with ["cb__mkt__demo__b.md"; "cb__mkt__demo__a.md"].
  intros Hs. apply Sorted_inv in Hs as [_ Hs]. apply HdRel_inv in Hs.
  by vm_compute in Hs.
Qed.

(** * More on the link primitives *)

(** X1. Neither link primitive overwrites: where the destination name is
    taken, by whatever kind of entry, the call fails, the answer is [False]
    and the directory is unchanged. *)
Theorem create_never_overwrites (env : platform) (source : string)
    (res : option kind) (root name : string) (w : bool)
    (d : gmap string dnode) (x : dnode) :
  d !! name = Some x →
  (∃ e, create_link env source res root name w d = (false, d, [MFailLinkDir e]))
  ∧ (∃ e, create_file_link env source res root name w d
          = (false, d, [MFailLinkFile e])).
Proof.
  intros Hx. unfold create_link, create_file_link, mklink, os_symlink,
    run_create. rewrite (found_exact env d name x Hx). simpl.
  split; destruct w; destruct (fault env _); simpl; eauto.
Qed.

Lemma create_never_overwrites_witness :
  (∃ e, create_link posix "/src/notes" (Some KDir) "/w" "notes.md" false
          stale_workflows = (false, stale_workflows, [MFailLinkDir e]))
  ∧ (∃ e, create_file_link posix "/src/notes" (Some KDir) "/w" "notes.md" false
            stale_workflows = (false, stale_workflows, [MFailLinkFile e])).
Proof.
  apply (create_never_overwrites posix "/src/notes" (Some KDir) "/w" "notes.md"
           false stale_workflows DFile).
  reflexivity.
Defined.

Lemma unset_set (d : gmap string dnode) (name : string) (x : dnode) :
  d !! name = None → delete name (<[name := x]> d) = d.
Proof. intros Hn. by rewrite delete_insert_eq, delete_id. Qed.

(** What a successful creation has done. *)
Lemma create_link_inv env source res root name d d1 out :
  create_link env source res root name (is_windows env) d = (true, d1, out) →
  d !! name = None ∧ out = []
  ∧ d1 = <[name := DLink (if is_windows env then Junction else Symbolic)
                     source res]> d.
Proof.
  unfold create_link, mklink, os_symlink, run_create, mklink_entry,
    symlink_entry.
  destruct (is_windows env); destruct (fault env _); simpl; [done| |done|];
    destruct (found env d name) eqn:Hf; simpl; intros [= <- <-];
    by apply found_None_lookup in Hf.
Qed.

Lemma create_file_link_inv env source res root name d d1 out :
  create_file_link env source res root name (is_windows env) d
  = (true, d1, out) →
  d !! name = None ∧ out = []
  ∧ d1 = <[name := if is_windows env then DFile
                   else DLink Symbolic source res]> d.
Proof.
  unfold create_file_link, mklink, os_symlink, run_create, mklink_entry,
    symlink_entry.
  destruct (is_windows env); destruct (fault env _); simpl; [done| |done|];
    destruct (found env d name) eqn:Hf; simpl; [done| |done|];
    apply found_None_lookup in Hf.
  - destruct res as [[]|]; simpl; intros [= <- <-]; done.
  - intros [= <- <-]; done.
Qed.

(** X2. Creating a link and removing it again is a round trip: whatever
    [create_link] or [create_file_link] has just created is removed by
    [remove_link] on the same platform, and the directory is what it was
    before (unless the removal is refused for an outside reason). *)
Theorem create_remove_round_trip (env : platform) (source : string)
    (res : option kind) (root name : string) (d d1 : gmap string dnode)
    (out : list msg) :
  fault env (sys_rmdir (root </> name)) = None →
  fault env (sys_remove (root </> name)) = None →
  create_link env source res root name (is_windows env) d = (true, d1, out)
  ∨ create_file_link env source res root name (is_windows env) d
    = (true, d1, out) →
  remove_link env root name (is_windows env) d1 = (true, d, []).
Proof.
  intros Hf1 Hf2 Hc. rewrite remove_link_effect. unfold remove_effect.
  rewrite Hf1, Hf2.
  destruct Hc as [(Hn & _ & ->)%create_link_inv
                 |(Hn & _ & ->)%create_file_link_inv];
    rewrite lookup_insert_eq;
    destruct (is_windows env), res as [[]|]; simpl;
    by rewrite <-(unset_set d name) at 2 by done.
Qed.

Lemma create_remove_round_trip_witness :
  remove_link windows "/b" "mkt1__demo" (is_windows windows)
    {[ "mkt1__demo" := DLink Junction "C:/src/demo" (Some KDir) ]}
  = (true, ∅, []).
Proof.
  apply (create_remove_round_trip windows "C:/src/demo" (Some KDir) "/b"
           "mkt1__demo" ∅ _ []); [reflexivity..|].
  left. vm_compute. reflexivity.
Defined.



(** * More on the sync command *)

(** The scan does not depend on the outside faults. *)
Lemma plugin_candidates_with_fault env f m :
  plugin_candidates (with_fault env f) m = plugin_candidates env m.
Proof. reflexivity. Qed.

Lemma workflow_candidates_with_fault env f m :
  workflow_candidates (with_fault env f) m = workflow_candidates env m.
Proof. reflexivity. Qed.

(** Where no listed name is obsolete the cleanup loop does nothing at all. *)
Lemma cleanup_all_skip env lt valid (l : list (string * dnode)) acc :
  (∀ n, n ∈ l.*1 → obsolete lt valid n = false) →
  foldl (cleanup_step env lt valid) acc l = acc.
Proof.
  revert acc. induction l as [|x l IH]; intros [[d r] f] Hl; [done|].
  cbn [foldl]. rewrite cleanup_step_spec, Hl by (rewrite fmap_cons; left).
  apply IH. intros n Hn. apply Hl. rewrite fmap_cons. by right.
Qed.

(** After a reconciliation without failure, another one of the same
    candidates has nothing to do, whatever calls would fail by then, where
    the names are told apart. *)
Lemma reconcile_fixed_point env f lt cands d :
  names_told_apart env cands d →
  Forall (visible env lt) cands →
  let o1 := reconcile env lt cands d in
  let o2 := reconcile (with_fault env f) lt cands (o_listing o1) in
  o_link_failures o1 = 0 → o_remove_failures o1 = 0 →
  o_listing o2 = o_listing o1
  ∧ o_counts o2 = {| bridged := length cands; new := 0;
                     existing := length cands; removed := 0 |}
  ∧ o_link_failures o2 = 0 ∧ o_remove_failures o2 = 0.
Proof.
  intros Ht Hv o1 o2 Hlf Hrf.
  assert (∀ c, c ∈ cands → present (o_listing o1 !! c_name c) = true) as Hp.
  { intros c Hc. by apply reconcile_present_told_apart. }
  pose proof (found_case_sensitive (with_fault env f)) as Hexact.
  destruct (link_all_present (case_sensitive (with_fault env f)) lt Hexact cands
              (Tally (o_listing o1) [] 0 0 0) Hp) as [H1 H2].
  destruct (link_all_idle (case_sensitive (with_fault env f)) lt Hexact cands
              (Tally (o_listing o1) [] 0 0 0)) as [H3 H4].
  { intros c Hc. left. by apply Hp. }
  unfold o2.
  rewrite (reconcile_case_sensitive (with_fault env f))
    by apply (names_told_apart_reconcile env lt cands d Ht).
  rewrite reconcile_unfold. cbn zeta.
  rewrite link_all_valid, H1, H2, H3, H4. cbn [t_listing t_valid app].
  rewrite cleanup_all_skip.
  - cbn [fst snd t_linked t_skipped t_failed]. by rewrite length_fmap.
  - intros n Hn. apply elem_of_sorted_listing in Hn.
    unfold obsolete. destruct (owned lt n) eqn:Hown; [|done]. simpl.
    rewrite bool_decide_eq_true_2; [done|].
    by apply (reconcile_converge_told_apart env lt cands d Ht n Hv Hlf Hrf Hown).
Qed.

(** X4. Where the volume tells the names of the identifiers and of the
    destination entries apart, a [sync] that printed no failure has reached
    a fixed point: run again on the unchanged marketplace it leaves the file
    system as it is, creates and removes nothing, finds every candidate in
    place and prints no failure, even when system calls would by now
    fail. *)
Theorem clean_sync_is_fixed_point (env : platform) (f : syscall → option exn)
    (fs : filesystem) (m : list (string * snode)) :
  marketplace fs = Some m →
  names_told_apart env (plugin_candidates env m) (mkdir (bridge_plugins fs)) →
  names_told_apart env (workflow_candidates env m)
    (mkdir (global_workflows fs)) →
  count_msgs is_failure (cmd_sync env fs).2 = 0 →
  let fs1 := (cmd_sync env fs).1 in
  let run2 := cmd_sync (with_fault env f) fs1 in
  run2.1 = fs1
  ∧ count_msgs is_failure run2.2 = 0
  ∧ summary run2.2
    = Some ({| bridged := length (plugin_candidates env m); new := 0;
               existing := length (plugin_candidates env m); removed := 0 |},
            {| bridged := length (workflow_candidates env m); new := 0;
               existing := length (workflow_candidates env m); removed := 0 |}).
Proof.
  intros Hm Htp Htw Hf fs1 run2.
  destruct (cmd_sync_reconcile env fs m Hm) as (Hfs1 & _ & Hl1 & Hr1).
  rewrite count_msgs_failure, Hl1, Hr1 in Hf. fold fs1 in Hfs1.
  assert (marketplace fs1 = Some m) as Hm1 by by rewrite Hfs1.
  destruct (cmd_sync_reconcile (with_fault env f) fs1 m Hm1)
    as (Hfs2 & Hs2 & Hl2 & Hr2).
  fold run2 in Hfs2, Hs2, Hl2, Hr2.
  rewrite plugin_candidates_with_fault, workflow_candidates_with_fault, Hfs1
    in Hfs2, Hs2, Hl2, Hr2.
  cbn [bridge_plugins global_workflows mkdir default id] in Hfs2, Hs2, Hl2, Hr2.
  destruct (reconcile_fixed_point env f DirectoryLink (plugin_candidates env m)
              (mkdir (bridge_plugins fs)) Htp (plugin_candidates_visible env m))
    as (Hp1 & Hp2 & Hp3 & Hp4); [lia..|].
  destruct (reconcile_fixed_point env f FileLink (workflow_candidates env m)
              (mkdir (global_workflows fs)) Htw
              (workflow_candidates_visible env m))
    as (Hw1 & Hw2 & Hw3 & Hw4); [lia..|].
  rewrite Hp1, Hw1 in Hfs2. rewrite Hp2, Hw2 in Hs2.
  rewrite Hp3, Hw3 in Hl2. rewrite Hp4, Hw4 in Hr2.
  split_and!; [by rewrite Hfs2, Hfs1|by rewrite count_msgs_failure, Hl2, Hr2|done].
Qed.

Lemma clean_sync_is_fixed_point_witness :
  let fs1 := (cmd_sync posix stale_demo_fs).1 in
  let run2 := cmd_sync (with_fault posix (fault posix_readonly)) fs1 in
  run2.1 = fs1
  ∧ count_msgs is_failure run2.2 = 0
  ∧ summary run2.2
    = Some ({| bridged := length (plugin_candidates posix demo_market);
               new := 0;
               existing := length (plugin_candidates posix demo_market);
               removed := 0 |},
            {| bridged := length (workflow_candidates posix demo_market);
               new := 0;
               existing := length (workflow_candidates posix demo_market);
               removed := 0 |}).
Proof.
  apply (clean_sync_is_fixed_point posix (fault posix_readonly) stale_demo_fs
           demo_market); [reflexivity| | |vm_compute; reflexivity].
  - by apply names_told_apart_id.
  - by apply names_told_apart_id.
Defined.

(** * What a run does to single entries *)

(** X5. [sync] never replaces or retargets an entry of the bridge-plugins
    directory whose name is the canonical identifier of a current plugin
    source: a plain file, a directory or a link to some other place of that
    name is left exactly as it is. *)
Theorem sync_keeps_valid_entries (env : platform) (fs : filesystem)
    (m : list (string * snode)) (d : gmap string dnode)
    (mp_name plugin_name : string) (x : dnode) :
  marketplace fs = Some m →
  bridge_plugins fs = Some d →
  is_plugin_source m mp_name plugin_name →
  d !! (mp_name +:+ "__" +:+ plugin_name) = Some x →
  ∃ d', bridge_plugins (cmd_sync env fs).1 = Some d'
        ∧ d' !! (mp_name +:+ "__" +:+ plugin_name) = Some x.
Proof.
  intros Hm Hd Hsrc Hx.
  destruct (cmd_sync_reconcile env fs m Hm) as (-> & _).
  eexists. split; [done|]. rewrite Hd. simpl.
  rewrite reconcile_lookup_valid.
  - by apply link_all_lookup_Some.
  - apply plugin_candidate_names. eauto.
Qed.

Lemma demo_is_plugin_source : is_plugin_source demo_market "mkt1" "demo".
Proof.
  eexists _, _. split_and!; [by left|done|done|by left|done|done].
Qed.

Lemma sync_keeps_valid_entries_witness :
  ∃ d', bridge_plugins
          (cmd_sync posix {| marketplace := Some demo_market;
                             bridge_plugins := Some {[ "mkt1__demo" := DFile ]};
                             global_workflows := None |}).1 = Some d'
        ∧ d' !! ("mkt1" +:+ "__" +:+ "demo") = Some DFile.
Proof.
  apply (sync_keeps_valid_entries posix _ demo_market
           {[ "mkt1__demo" := DFile ]} "mkt1" "demo" DFile);
    [reflexivity|reflexivity|apply demo_is_plugin_source|reflexivity].
Defined.

(** When [remove_link] succeeds. *)
Lemma remove_effect_removable env root name x :
  removable_kind env x = true →
  fault env (sys_rmdir (root </> name)) = None →
  fault env (sys_remove (root </> name)) = None →
  succeeds (remove_effect env root name (Some x)) = true.
Proof.
  intros Hk Hf1 Hf2. unfold remove_effect. rewrite Hf1, Hf2.
  unfold removable_kind in Hk.
  destruct x as [|[|y contents]|[] target [[]|]]; try done;
    destruct (is_windows env); done.
Qed.

(** X6. The bridge-plugins directory has no ownership filter: any entry
    there whose name is not the canonical identifier of a current plugin
    source, whoever put it there, is removed by [sync] when it is a link, a
    plain file or an empty directory and the removal is not refused. *)
Theorem sync_removes_foreign_plugin_entries (env : platform) (fs : filesystem)
    (m : list (string * snode)) (d : gmap string dnode) (name : string)
    (x : dnode) :
  marketplace fs = Some m →
  bridge_plugins fs = Some d →
  d !! name = Some x →
  (∀ mp_name plugin_name,
     is_plugin_source m mp_name plugin_name →
     name ≠ mp_name +:+ "__" +:+ plugin_name) →
  removable_kind env x = true →
  fault env (sys_rmdir (get_bridge_plugins_dir env </> name)) = None →
  fault env (sys_remove (get_bridge_plugins_dir env </> name)) = None →
  ∃ d', bridge_plugins (cmd_sync env fs).1 = Some d' ∧ d' !! name = None.
Proof.
  intros Hm Hd Hx Hn Hk Hf1 Hf2.
  destruct (cmd_sync_reconcile env fs m Hm) as (-> & _).
  eexists. split; [done|]. rewrite Hd. simpl.
  assert (name ∉ c_name <$> plugin_candidates env m) as Hnot.
  { intros (mp_name & plugin_name & Hsrc & ->)%plugin_candidate_names.
    by eapply Hn. }
  rewrite reconcile_lookup. unfold linked_listing.
  rewrite link_all_lookup_ne by done. simpl. rewrite Hx.
  unfold to_remove, obsolete. simpl.
  rewrite bool_decide_eq_false_2 by done.
  by rewrite remove_effect_removable.
Qed.

Lemma sync_removes_foreign_plugin_entries_witness :
  ∃ d', bridge_plugins
          (cmd_sync posix {| marketplace := Some [];
                             bridge_plugins := Some {[ "notes.txt" := DFile ]};
                             global_workflows := None |}).1 = Some d'
        ∧ d' !! "notes.txt" = None.
Proof.
  apply (sync_removes_foreign_plugin_entries posix _ []
           {[ "notes.txt" := DFile ]} "notes.txt" DFile);
    try reflexivity.
  intros mp_name plugin_name (mp_node & _ & Hin & _). by apply elem_of_nil in Hin.
Defined.

(** Every entry after the link loop was there before or is what the link
    primitive makes for a candidate of that name. *)
Lemma link_all_origin env lt cands t n x :
  t_listing (foldl (link_step env lt) t cands) !! n = Some x →
  t_listing t !! n = Some x
  ∨ ∃ c, c ∈ cands ∧ c_name c = n
         ∧ link_effect env lt c None = inr (Some x).
Proof.
  revert t. induction cands as [|c cands IH]; intros t Hx; [by left|].
  cbn [foldl] in Hx. apply IH in Hx as [Hx|(c' & Hc' & Hn & He)].
  - rewrite link_step_spec in Hx. destruct (present _); [by left|].
    destruct (link_effect env lt c (found env (t_listing t) (c_name c)))
      as [e|o] eqn:Ho;
      [by left|]. simpl in Hx.
    rewrite lookup_partial_alter in Hx. case_decide as Hcn; [|by left].
    right. exists c. split_and!; [by left|done|].
    destruct (link_effect_inr _ _ _ _ _ Ho) as [Hnone _].
    by rewrite Hnone, Hx in Ho.
  - right. exists c'. split_and!; [by right|done..].
Qed.

(** X7. [sync] puts nothing into the bridge-plugins directory but links to
    plugin sources: an entry found there after a run was there before, or is
    a directory link (a junction on Windows, a symbolic link elsewhere)
    named after a plugin source and pointing at that plugin's directory. *)
Theorem sync_only_adds_plugin_links (env : platform) (fs : filesystem)
    (m : list (string * snode)) (d' : gmap string dnode) (name : string)
    (x : dnode) :
  marketplace fs = Some m →
  bridge_plugins (cmd_sync env fs).1 = Some d' →
  d' !! name = Some x →
  mkdir (bridge_plugins fs) !! name = Some x
  ∨ ∃ mp_dir plugin_dir,
      mp_dir ∈ m ∧ plugin_dir ∈ plugins_of env mp_dir
      ∧ name = mp_dir.1 +:+ "__" +:+ plugin_dir.1
      ∧ x = DLink (if is_windows env then Junction else Symbolic)
              (plugin_path env mp_dir plugin_dir.1) (Some KDir).
Proof.
  intros Hm Hd' Hx.
  destruct (cmd_sync_reconcile env fs m Hm) as (Hfs & _).
  rewrite Hfs in Hd'. injection Hd' as <-.
  rewrite reconcile_lookup in Hx.
  destruct (to_remove _ _ _ _ _); [done|].
  apply link_all_origin in Hx as [Hx|(c & Hc & Hn & He)]; [by left|right].
  apply elem_of_plugin_candidates in Hc as (mp_dir & plugin_dir & Hmp & Hp & ->).
  exists mp_dir, plugin_dir. split_and!; [done..|].
  assert (resolution plugin_dir.2 = Some KDir) as Hres.
  { apply elem_of_plugins_of in Hp as (_ & _ & _ & Hdir & _).
    by destruct plugin_dir.2. }
  unfold link_effect, plugin_candidate, mklink_entry, symlink_entry in He.
  simpl in He. rewrite Hres in He. unfold plugin_path.
  destruct (is_windows env); destruct (fault env _); by simplify_eq.
Qed.

Lemma sync_only_adds_plugin_links_witness :
  ∃ d', bridge_plugins (cmd_sync posix demo_fs).1 = Some d'
    ∧ (mkdir (bridge_plugins demo_fs) !! "mkt1__demo"
       = Some (DLink Symbolic
                 "/home/u/.claude/plugins/marketplaces/mkt1/demo" (Some KDir))
       ∨ ∃ mp_dir plugin_dir,
           mp_dir ∈ demo_market ∧ plugin_dir ∈ plugins_of posix mp_dir
           ∧ "mkt1__demo" = mp_dir.1 +:+ "__" +:+ plugin_dir.1
           ∧ DLink Symbolic "/home/u/.claude/plugins/marketplaces/mkt1/demo"
               (Some KDir)
             = DLink (if is_windows posix then Junction else Symbolic)
                 (plugin_path posix mp_dir plugin_dir.1) (Some KDir)).
Proof.
  eexists. split; [vm_compute; reflexivity|].
  eapply (sync_only_adds_plugin_links posix demo_fs demo_market);
    [reflexivity|vm_compute; reflexivity|vm_compute; reflexivity].
Defined.

(** * Workflows *)

Lemma elem_of_commands_of env plugin_dir cmd_file :
  cmd_file ∈ commands_of env plugin_dir ↔
  snode_is_dir (sub plugin_dir.2 "commands") = true
  ∧ cmd_file ∈ iterdir (sub plugin_dir.2 "commands")
  ∧ endswith (normcase env cmd_file.1) ".md" = true.
Proof.
  unfold commands_of, glob_md.
  destruct (sub plugin_dir.2 "commands") as [|entries|]; simpl;
    rewrite ?elem_of_nil; try (split; [done|by intros (? & _)]).
  rewrite list_elem_of_filter, Is_true_true. tauto.
Qed.

(** The names of the workflow candidates are the workflow identifiers of the
    workflow sources. *)
Lemma workflow_candidate_names env m name :
  name ∈ c_name <$> workflow_candidates env m ↔
  ∃ mp_name plugin_name file,
    is_workflow_source env m mp_name plugin_name file
    ∧ name = "cb__" +:+ mp_name +:+ "__" +:+ plugin_name +:+ "__" +:+ file.
Proof.
  rewrite list_elem_of_fmap. split.
  - intros (c & -> & Hc). apply elem_of_workflow_candidates in Hc
      as ([mp_name mp_node] & [plugin_name plugin_node] & [file file_node]
          & Hm & Hp & Hf & ->).
    apply elem_of_plugins_of in Hp as (H1 & H2 & H3 & H4 & H5).
    apply elem_of_commands_of in Hf as (H6 & H7 & H8).
    rewrite plugin_base_of_node in H3.
    exists mp_name, plugin_name, file. split; [|done].
    by exists mp_node, plugin_node, file_node.
  - intros (mp_name & plugin_name & file
            & (mp_node & plugin_node & file_node & Hm & H1 & H2 & H3 & H4 & H5
               & H6 & H7 & H8) & ->).
    exists (workflow_candidate env (mp_name, mp_node) (plugin_name, plugin_node)
              (file, file_node)).
    split; [done|]. apply elem_of_workflow_candidates.
    exists (mp_name, mp_node), (plugin_name, plugin_node), (file, file_node).
    split_and!; [done| | |done].
    + apply elem_of_plugins_of. by rewrite plugin_base_of_node.
    + by apply elem_of_commands_of.
Qed.

(** X8. After a [sync] on an existing marketplace that printed no failure,
    the names with the [cb__] prefix in the workflows directory are exactly
    the identifiers [cb__marketplace__plugin__file] of the current workflow
    sources (the [*.md] entries of the [commands] directory of each plugin
    source), provided the volume tells the names of the identifiers and of
    the entries of the directory apart. *)
Theorem sync_converges_workflow_sources (env : platform) (fs : filesystem)
    (m : list (string * snode)) :
  marketplace fs = Some m →
  names_told_apart env (workflow_candidates env m)
    (mkdir (global_workflows fs)) →
  count_msgs is_failure (cmd_sync env fs).2 = 0 →
  ∃ d, global_workflows (cmd_sync env fs).1 = Some d
       ∧ ∀ name, startswith name "cb__" = true →
           name ∈ dom d ↔
           ∃ mp_name plugin_name file,
             is_workflow_source env m mp_name plugin_name file
             ∧ name = "cb__" +:+ mp_name +:+ "__" +:+ plugin_name
                      +:+ "__" +:+ file.
Proof.
  intros Hm Ht Hf.
  destruct (sync_converges_workflows env fs m Hm Ht Hf) as (d & Hd & Hdom).
  exists d. split; [done|]. intros name Hn.
  by rewrite Hdom, workflow_candidate_names.
Qed.

Lemma sync_converges_workflow_sources_witness :
  ∃ d, global_workflows (cmd_sync macos stale_demo_fs).1 = Some d
       ∧ ∀ name, startswith name "cb__" = true →
           name ∈ dom d ↔
           ∃ mp_name plugin_name file,
             is_workflow_source macos demo_market mp_name plugin_name file
             ∧ name = "cb__" +:+ mp_name +:+ "__" +:+ plugin_name
                      +:+ "__" +:+ file.
Proof.
  apply (sync_converges_workflow_sources macos stale_demo_fs demo_market);
    [reflexivity| |vm_compute; reflexivity].
  apply names_told_apart_NoDup, (bool_decide_unpack _). vm_compute.
  reflexivity.
Defined.

(** * Resolving *)

(** X9. A query that is a single path component, is a substring of exactly
    one entry name, itself a single component, and is no other spelling of
    an entry's name on a volume that would not tell the two apart, resolves
    to what that entry's full name resolves to. *)
Theorem resolve_by_unique_substring (env : platform) (root : string)
    (d : gmap string dnode) (query full : string) :
  is_component query = true →
  is_component full = true →
  (∀ k, is_Some (d !! k) ∧ contains query k = true ↔ k = full) →
  (∀ k, is_Some (d !! k) → casefold env k = casefold env query → k = query) →
  resolve_plugin env root (Some d) query
  = Resolved (realpath root full (d !! full))
  ∧ resolve_plugin env root (Some d) full
    = resolve_plugin env root (Some d) query.
Proof.
  intros Hq%is_component_not_dot Hfc%is_component_not_dot Hu Hv.
  destruct (proj2 (Hu full) eq_refl) as [Hfull Hcq].
  pose proof (found_told_apart env d query Hv) as Hfq.
  assert (found env d full = d !! full) as Hff.
  { destruct Hfull as [x Hx]. by rewrite (found_exact _ _ _ _ Hx). }
  assert (resolve_plugin env root (Some d) full
          = Resolved (realpath root full (d !! full))) as Hrf.
  { destruct (path_exists (d !! full)) eqn:Hex; [by apply resolve_exact|].
    apply resolve_unique; [done|by rewrite Hff|]. intros k. split.
    - intros [Hk Hc]. apply Hu. split; [done|].
      apply contains_spec in Hc as (a & b & ->).
      apply contains_spec in Hcq as (a' & b' & ->).
      apply contains_spec. exists (a +:+ a'), (b' +:+ b).
      by rewrite !string_app_assoc.
    - intros ->. split; [done|apply contains_refl]. }
  assert (resolve_plugin env root (Some d) query
          = Resolved (realpath root full (d !! full))) as Hrq.
  { destruct (path_exists (d !! query)) eqn:Hex.
    - assert (query = full) as ->; [|by apply resolve_exact].
      apply Hu. split; [|apply contains_refl].
      destruct (d !! query); [eauto|done].
    - apply resolve_unique; [done|by rewrite Hfq|done]. }
  by rewrite Hrf, Hrq.
Qed.

Lemma resolve_by_unique_substring_witness :
  resolve_plugin macos "/b" (Some two_x) "alpha"
  = Resolved (realpath "/b" "alpha__x" (two_x !! "alpha__x"))
  ∧ resolve_plugin macos "/b" (Some two_x) "alpha__x"
    = resolve_plugin macos "/b" (Some two_x) "alpha".
Proof.
  apply (resolve_by_unique_substring macos "/b" two_x "alpha" "alpha__x");
    [reflexivity|reflexivity| |].
  - intros k. split.
    + intros [[x Hx] Hc]. unfold two_x in Hx.
      apply lookup_insert_Some in Hx as [[<- _]|[_ Hx]]; [done|].
      apply lookup_singleton_Some in Hx as [<- _]. discriminate Hc.
    + intros ->. split; [by eexists|reflexivity].
  - intros k [x Hx] Hk. unfold two_x in Hx.
    apply lookup_insert_Some in Hx as [[<- _]|[_ Hx]]; [discriminate Hk|].
    apply lookup_singleton_Some in Hx as [<- _]. discriminate Hk.
Defined.

(** * Bridge names *)

Lemma separable_spec mp_name :
  separable mp_name = true ↔
  contains "__" mp_name = false ∧ endswith mp_name "_" = false.
Proof.
  unfold separable. rewrite andb_true_iff, !negb_true_iff. tauto.
Qed.

Lemma separable_cons c s : separable (String c s) = true → separable s = true.
Proof.
  rewrite !separable_spec, contains_cons, orb_false_iff.
  intros [[_ Hc] He]. split; [done|].
  destruct (endswith s "_") eqn:Hs; [|done].
  apply endswith_spec in Hs as [a ->].
  rewrite <-He. symmetry. apply endswith_spec. by exists (String c a).
Qed.

(** A separable name followed by the separator cannot be read as the
    separator itself. *)
Lemma separable_no_separator s t u :
  separable s = true → "__" +:+ t = s +:+ "__" +:+ u → s = "".
Proof.
  intros Hs Heq. destruct s as [|c s]; [done|]. exfalso.
  rewrite !string_app_cons in Heq. injection Heq as <- Heq.
  apply separable_spec in Hs as [Hc He].
  destruct s as [|c s]; [by vm_compute in He|].
  rewrite !string_app_cons in Heq. injection Heq as <- _.
  apply not_true_iff_false in Hc. apply Hc, contains_spec. by exists "", s.
Qed.

(** The marketplace and the plugin can be read off a bridge name. *)
Lemma bridge_name_inj mp_name plugin_name mp_name' plugin_name' :
  separable mp_name = true → separable mp_name' = true →
  mp_name +:+ "__" +:+ plugin_name = mp_name' +:+ "__" +:+ plugin_name' →
  mp_name = mp_name' ∧ plugin_name = plugin_name'.
Proof.
  revert mp_name'. induction mp_name as [|c s IH]; intros [|c' s'] Hs Hs' Heq.
  - rewrite !string_app_nil, !string_app_cons, !string_app_nil in Heq.
    by simplify_eq.
  - rewrite string_app_nil in Heq.
    by apply separable_no_separator in Heq.
  - rewrite (string_app_nil (_ +:+ plugin_name')) in Heq. symmetry in Heq.
    by apply separable_no_separator in Heq.
  - rewrite !string_app_cons in Heq. injection Heq as -> Heq.
    destruct (IH s') as [-> ->]; eauto using separable_cons.
Qed.

(** A bridge name is neither empty nor a dot. *)
Lemma bridge_name_not_dot mp_name plugin_name :
  bool_decide (mp_name +:+ "__" +:+ plugin_name ∈ [""; "."]) = false.
Proof.
  apply bool_decide_eq_false. intros Hin.
  assert (contains "__" (mp_name +:+ "__" +:+ plugin_name) = true) as Hc
    by (apply contains_spec; eauto).
  apply elem_of_cons in Hin as [Heq|Hin].
  { rewrite Heq in Hc. vm_compute in Hc. discriminate Hc. }
  apply list_elem_of_singleton in Hin. rewrite Hin in Hc.
  vm_compute in Hc. discriminate Hc.
Qed.

(** * From [sync] to the resolver *)

(** A directory listing holds one entry of a name. *)
Lemma listing_entry_unique {A} (l : list (string * A)) k a b :
  NoDup l.*1 → (k, a) ∈ l → (k, b) ∈ l → a = b.
Proof.
  induction l as [|[k' x] l IH]; intros Hnd Ha Hb; [by apply elem_of_nil in Ha|].
  rewrite fmap_cons in Hnd. apply NoDup_cons in Hnd as [Hk Hnd].
  apply elem_of_cons in Ha as [Ha|Ha]; apply elem_of_cons in Hb as [Hb|Hb];
    simplify_eq; [done| | |by apply IH].
  - destruct Hk. apply list_elem_of_fmap. by exists (k', b).
  - destruct Hk. apply list_elem_of_fmap. by exists (k', a).
Qed.

(** The entry that [create_link] makes for a plugin directory. *)
Lemma plugin_link_entry env mp_dir plugin_dir x :
  plugin_dir ∈ plugins_of env mp_dir →
  link_effect env DirectoryLink (plugin_candidate env mp_dir plugin_dir) None
    = inr (Some x) →
  x = DLink (if is_windows env then Junction else Symbolic)
        (plugin_path env mp_dir plugin_dir.1) (Some KDir).
Proof.
  intros Hp He.
  assert (resolution plugin_dir.2 = Some KDir) as Hres.
  { apply elem_of_plugins_of in Hp as (_ & _ & _ & Hdir & _).
    by destruct plugin_dir.2. }
  unfold link_effect, plugin_candidate, mklink_entry, symlink_entry in He.
  simpl in He. rewrite Hres in He. unfold plugin_path.
  destruct (is_windows env); destruct (fault env _); by simplify_eq.
Qed.

(** X10. [sync] followed by [resolve_plugin], as [info] and [run] use it:
    when the names of the marketplace entries are distinct and separable
    (no double underscore inside, no underscore at the end) and the volume
    tells the names of the identifiers and of the entries of the
    bridge-plugins directory apart, a run that printed no failure makes the
    full name [marketplace__plugin] of a plugin source that had no entry
    before resolve to the directory of that very plugin, the target of the
    link made for it. *)
Theorem sync_then_resolve (env : platform) (fs : filesystem)
    (m : list (string * snode)) (mp_dir plugin_dir : string * snode) :
  marketplace fs = Some m →
  NoDup m.*1 →
  (∀ mp, mp ∈ m → separable mp.1 = true) →
  names_told_apart env (plugin_candidates env m) (mkdir (bridge_plugins fs)) →
  mp_dir ∈ m →
  plugin_dir ∈ plugins_of env mp_dir →
  mkdir (bridge_plugins fs) !! (mp_dir.1 +:+ "__" +:+ plugin_dir.1) = None →
  count_msgs is_failure (cmd_sync env fs).2 = 0 →
  resolve_plugin env (get_bridge_plugins_dir env)
    (bridge_plugins (cmd_sync env fs).1) (mp_dir.1 +:+ "__" +:+ plugin_dir.1)
  = Resolved (plugin_path env mp_dir plugin_dir.1).
Proof.
  destruct mp_dir as [mp_name mp_node].
  intros Hm Hnd Hsep Ht Hmp Hp Hnone Hf. simpl in Hnone.
  destruct (cmd_sync_reconcile env fs m Hm) as (Hfs & _ & Hl & Hr).
  rewrite count_msgs_failure, Hl, Hr in Hf. rewrite Hfs. simpl.
  set (cands := plugin_candidates env m) in *.
  set (d := mkdir (bridge_plugins fs)) in *.
  set (c := plugin_candidate env (mp_name, mp_node) plugin_dir).
  assert (c ∈ cands) as Hc.
  { apply elem_of_plugin_candidates. by exists (mp_name, mp_node), plugin_dir. }
  assert (o_link_failures (reconcile env DirectoryLink cands d) = 0) as Hlf
    by lia.
  pose proof (reconcile_present_told_apart env DirectoryLink cands d Ht c
                (plugin_candidates_visible env m) Hlf Hc) as Hpr.
  destruct (present_Some _ Hpr) as [x Hd'].
  pose proof Hd' as Hx.
  rewrite reconcile_lookup_valid in Hx by (apply list_elem_of_fmap; by exists c).
  apply link_all_origin in Hx as [Hx|(c' & Hc' & Hn & He)].
  { unfold c in Hx. simpl in Hx. by rewrite Hnone in Hx. }
  apply elem_of_plugin_candidates in Hc'
    as ([mp_name' mp_node'] & plugin_dir' & Hmp' & Hp' & ->).
  unfold c in Hn. simpl in Hn.
  apply bridge_name_inj in Hn as [-> Hpn];
    [|apply (Hsep _ Hmp')|apply (Hsep _ Hmp)].
  assert (mp_node' = mp_node) as ->.
  { by eapply listing_entry_unique. }
  apply plugin_link_entry in He; [|done]. rewrite Hpn in He.
  change (mp_name +:+ "__" +:+ plugin_dir.1) with (c_name c).
  rewrite resolve_exact; rewrite ?Hd', ?He; [done|apply bridge_name_not_dot|done].
Qed.

Lemma sync_then_resolve_witness :
  resolve_plugin macos (get_bridge_plugins_dir macos)
    (bridge_plugins (cmd_sync macos stale_demo_fs).1) "mkt1__demo"
  = Resolved "/Users/u/.claude/plugins/marketplaces/mkt1/demo".
Proof.
  apply (sync_then_resolve macos stale_demo_fs demo_market
           ("mkt1", SDir [("demo", SDir [("plugin.json", SFile);
                                         ("commands", SDir [("go.md", SFile)])])])
           ("demo", SDir [("plugin.json", SFile);
                          ("commands", SDir [("go.md", SFile)])])).
  - reflexivity.
  - apply NoDup_singleton.
  - intros mp ->%list_elem_of_singleton. reflexivity.
  - apply names_told_apart_NoDup, (bool_decide_unpack _). vm_compute.
    reflexivity.
  - apply list_elem_of_here.
  - vm_compute. apply list_elem_of_here.
  - reflexivity.
  - vm_compute. reflexivity.
Defined.

(** * What a run adds to the workflows directory *)

(** X11. [sync] puts nothing into the global workflows directory but links
    to command files: an entry found there after a run was there before, or
    carries the identifier [cb__marketplace__plugin__file] of a command file
    and is, outside Windows, a symbolic link to that file (whatever the file
    is) and, on Windows, a hard link, that is an ordinary file, which only a
    regular command file gets. *)
Theorem sync_only_adds_workflow_links (env : platform) (fs : filesystem)
    (m : list (string * snode)) (d' : gmap string dnode) (name : string)
    (x : dnode) :
  marketplace fs = Some m →
  global_workflows (cmd_sync env fs).1 = Some d' →
  d' !! name = Some x →
  mkdir (global_workflows fs) !! name = Some x
  ∨ ∃ mp_dir plugin_dir cmd_file,
      mp_dir ∈ m ∧ plugin_dir ∈ plugins_of env mp_dir
      ∧ cmd_file ∈ commands_of env plugin_dir
      ∧ name = "cb__" +:+ mp_dir.1 +:+ "__" +:+ plugin_dir.1
               +:+ "__" +:+ cmd_file.1
      ∧ if is_windows env
        then resolution cmd_file.2 = Some KFile ∧ x = DFile
        else x = DLink Symbolic
                   (plugin_path env mp_dir plugin_dir.1 </> "commands"
                    </> cmd_file.1)
                   (resolution cmd_file.2).
Proof.
  intros Hm Hd' Hx.
  destruct (cmd_sync_reconcile env fs m Hm) as (Hfs & _).
  rewrite Hfs in Hd'. injection Hd' as <-.
  rewrite reconcile_lookup in Hx.
  destruct (to_remove _ _ _ _ _); [done|].
  apply link_all_origin in Hx as [Hx|(c & Hc & Hn & He)]; [by left|right].
  apply elem_of_workflow_candidates in Hc
    as (mp_dir & plugin_dir & cmd_file & Hmp & Hp & Hf & ->).
  exists mp_dir, plugin_dir, cmd_file. split_and!; [done..|].
  unfold link_effect, workflow_candidate, mklink_entry, symlink_entry in He.
  simpl in He. unfold plugin_path.
  destruct (is_windows env); destruct (fault env _); try done.
  - destruct (resolution cmd_file.2) as [[]|]; by simplify_eq.
  - by simplify_eq.
Qed.

Lemma sync_only_adds_workflow_links_witness :
  mkdir (global_workflows demo_fs) !! "cb__mkt1__demo__go.md"
  = Some (DLink Symbolic
            "/home/u/.claude/plugins/marketplaces/mkt1/demo/commands/go.md"
            (Some KFile))
  ∨ ∃ mp_dir plugin_dir cmd_file,
      mp_dir ∈ demo_market ∧ plugin_dir ∈ plugins_of posix mp_dir
      ∧ cmd_file ∈ commands_of posix plugin_dir
      ∧ "cb__mkt1__demo__go.md"
        = "cb__" +:+ mp_dir.1 +:+ "__" +:+ plugin_dir.1 +:+ "__" +:+ cmd_file.1
      ∧ if is_windows posix
        then resolution cmd_file.2 = Some KFile
             ∧ DLink Symbolic
                 "/home/u/.claude/plugins/marketplaces/mkt1/demo/commands/go.md"
                 (Some KFile) = DFile
        else DLink Symbolic
               "/home/u/.claude/plugins/marketplaces/mkt1/demo/commands/go.md"
               (Some KFile)
             = DLink Symbolic
                 (plugin_path posix mp_dir plugin_dir.1 </> "commands"
                  </> cmd_file.1)
                 (resolution cmd_file.2).
Proof.
  eapply (sync_only_adds_workflow_links posix demo_fs demo_market);
    [reflexivity|vm_compute; reflexivity|vm_compute; reflexivity].
Defined.

(** * The order of the directory listing *)

(** Entries whose case-normalised names differ are ordered one way only. *)
Lemma path_le_antisym env {A} (l : list (string * A)) a b :
  NoDup (normcase env <$> l.*1) → a ∈ l → b ∈ l →
  path_le env a b → path_le env b a → a = b.
Proof.
  intros Hnd Ha Hb Hab Hba.
  assert (normcase env a.1 = normcase env b.1) as Heq
    by (by apply (anti_symm String.le)).
  clear Hab Hba. induction l as [|x l IH]; [by apply elem_of_nil in Ha|].
  rewrite !fmap_cons in Hnd. apply NoDup_cons in Hnd as [Hx Hnd].
  apply elem_of_cons in Ha as [->|Ha]; apply elem_of_cons in Hb as [->|Hb];
    [done| | |by apply IH].
  - destruct Hx. rewrite Heq, <-list_fmap_compose. apply list_elem_of_fmap.
    by exists b.
  - destruct Hx. rewrite <-Heq, <-list_fmap_compose. apply list_elem_of_fmap.
    by exists a.
Qed.

(** Sorting forgets the order of a listing with distinct names. *)
Lemma sorted_listing_order env {A} (l l' : list (string * A)) :
  l ≡ₚ l' → NoDup (normcase env <$> l.*1) → sorted env l' = sorted env l.
Proof.
  intros Hp Hnd.
  apply (StronglySorted_unique_strong (path_le env)).
  - intros a b Ha Hb. apply (path_le_antisym env l); [done|..].
    + apply elem_of_sorted in Ha. by rewrite Hp.
    + by apply elem_of_sorted in Hb.
  - apply (StronglySorted_merge_sort (path_le env)).
  - apply (StronglySorted_merge_sort (path_le env)).
  - by rewrite !sorted_perm.
Qed.

(** X12. The result of [sync] does not depend on the order in which the
    system lists the marketplace root: with distinct (case-normalised)
    entry names, two listings of the same entries give the same destination
    directories and the same lines printed. *)
Theorem sync_listing_order (env : platform) (fs fs' : filesystem)
    (m m' : list (string * snode)) :
  marketplace fs = Some m →
  marketplace fs' = Some m' →
  bridge_plugins fs' = bridge_plugins fs →
  global_workflows fs' = global_workflows fs →
  m ≡ₚ m' →
  NoDup (normcase env <$> m.*1) →
  bridge_plugins (cmd_sync env fs').1 = bridge_plugins (cmd_sync env fs).1
  ∧ global_workflows (cmd_sync env fs').1 = global_workflows (cmd_sync env fs).1
  ∧ (cmd_sync env fs').2 = (cmd_sync env fs).2.
Proof.
  intros Hm Hm' Hb Hw Hp Hnd. unfold cmd_sync.
  rewrite Hm, Hm', Hb, Hw, (sorted_listing_order env m m' Hp Hnd).
  destruct (foldl (cleanup_plugin env _) _ _) as [[bp out1] rp].
  destruct (foldl (cleanup_workflow env _) _ _) as [[gw out2] rw].
  done.
Qed.

Lemma sync_listing_order_witness :
  bridge_plugins (cmd_sync posix (with_marketplace demo_fs (reverse two_markets))).1
  = bridge_plugins (cmd_sync posix (with_marketplace demo_fs two_markets)).1
  ∧ global_workflows
      (cmd_sync posix (with_marketplace demo_fs (reverse two_markets))).1
    = global_workflows (cmd_sync posix (with_marketplace demo_fs two_markets)).1
  ∧ (cmd_sync posix (with_marketplace demo_fs (reverse two_markets))).2
    = (cmd_sync posix (with_marketplace demo_fs two_markets)).2.
Proof.
  apply (sync_listing_order posix (with_marketplace demo_fs two_markets)
           (with_marketplace demo_fs (reverse two_markets))
           two_markets (reverse two_markets)); try reflexivity.
  - apply perm_swap.
  - apply (bool_decide_unpack _). vm_compute. reflexivity.
Defined.

(** * The list command *)

(** A plugin line is printed for the entries that are directories, links
    to directories included, and for no other. *)
Lemma elem_of_cmd_list env below d name tag :
  LPlugin name tag ∈ cmd_list env below (Some d) ↔
  path_is_dir (d !! name) = true
  ∧ tag = tag_of (filter (λ r, below name r.1 = true) RESOURCES).*2.
Proof.
  unfold cmd_list.
  set (plugins := sorted env (filter _ (map_to_list d))).
  assert (∀ p, p ∈ plugins ↔ d !! p.1 = Some p.2 ∧ path_is_dir (Some p.2) = true)
    as Hin.
  { intros [k x]. unfold plugins.
    rewrite elem_of_sorted, list_elem_of_filter, elem_of_map_to_list. tauto. }
  assert (LPlugin name tag
            ∈ (λ p, LPlugin p.1
                      (tag_of (filter (λ r, below p.1 r.1 = true) RESOURCES).*2))
              <$> plugins
          ↔ path_is_dir (d !! name) = true
            ∧ tag = tag_of (filter (λ r, below name r.1 = true) RESOURCES).*2)
    as Hlines.
  { rewrite list_elem_of_fmap. split.
    - intros ([k x] & Heq & [Hk Hd]%Hin). simpl in *. simplify_eq.
      by rewrite Hk.
    - intros [Hd ->]. destruct (d !! name) as [x|] eqn:Hx; [|done].
      exists (name, x). split; [done|]. by apply Hin. }
  destruct plugins as [|p plugins'] eqn:Hp.
  - rewrite <-Hlines, list_elem_of_singleton, fmap_nil, elem_of_nil.
    split; [done|tauto].
  - rewrite <-Hlines, elem_of_cons. split; [|tauto].
    by intros [?|?].
Qed.

(** X13. [sync] followed by [list]: when every entry the bridge-plugins
    directory held before is a directory or a link to one (none at all, for
    a first run) and the volume tells the names of the identifiers and of
    those entries apart, a run that printed no failure makes [list] show
    exactly the names [marketplace__plugin] of the current plugin
    sources. *)
Theorem sync_then_list (env : platform) (below : string → string → bool)
    (fs : filesystem) (m : list (string * snode)) (name : string) :
  marketplace fs = Some m →
  (∀ k x, mkdir (bridge_plugins fs) !! k = Some x → path_is_dir (Some x) = true) →
  names_told_apart env (plugin_candidates env m) (mkdir (bridge_plugins fs)) →
  count_msgs is_failure (cmd_sync env fs).2 = 0 →
  (∃ tag, LPlugin name tag
            ∈ cmd_list env below (bridge_plugins (cmd_sync env fs).1))
  ↔ ∃ mp_name plugin_name,
      is_plugin_source m mp_name plugin_name
      ∧ name = mp_name +:+ "__" +:+ plugin_name.
Proof.
  intros Hm Hdirs Ht Hf.
  destruct (cmd_sync_reconcile env fs m Hm) as (Hfs & _ & Hl & Hr).
  rewrite count_msgs_failure, Hl, Hr in Hf. rewrite Hfs. simpl.
  set (cands := plugin_candidates env m) in *.
  set (d := mkdir (bridge_plugins fs)) in *.
  rewrite <-plugin_candidate_names. fold cands.
  assert (is_Some (o_listing (reconcile env DirectoryLink cands d) !! name)
          ↔ name ∈ c_name <$> cands) as Hconv.
  { apply reconcile_converge_told_apart;
      [done|apply plugin_candidates_visible|lia|lia|done]. }
  split.
  - intros [tag [Hd _]%elem_of_cmd_list]. apply Hconv.
    destruct (_ !! name); [eauto|done].
  - intros Hn. exists (tag_of (filter (λ r, below name r.1 = true) RESOURCES).*2).
    apply elem_of_cmd_list. split; [|done].
    destruct (proj2 Hconv Hn) as [x Hx]. rewrite Hx.
    rewrite reconcile_lookup_valid in Hx by done.
    apply link_all_origin in Hx as [Hx|(c & Hc & _ & He)]; [by eapply Hdirs|].
    apply elem_of_plugin_candidates in Hc as (mp_dir & plugin_dir & _ & Hp & ->).
    apply plugin_link_entry in He as ->; done.
Qed.

Lemma sync_then_list_witness :
  (∃ tag, LPlugin "mkt1__demo" tag
            ∈ cmd_list macos (λ _ _, false)
                (bridge_plugins
                   (cmd_sync macos
                      {| marketplace := Some demo_market;
                         bridge_plugins := Some {[ "mkt1__old" := DDir [] ]};
                         global_workflows := None |}).1))
  ↔ ∃ mp_name plugin_name,
      is_plugin_source demo_market mp_name plugin_name
      ∧ "mkt1__demo" = mp_name +:+ "__" +:+ plugin_name.
Proof.
  apply (sync_then_list macos (λ _ _, false)
           {| marketplace := Some demo_market;
              bridge_plugins := Some {[ "mkt1__old" := DDir [] ]};
              global_workflows := None |} demo_market "mkt1__demo").
  - reflexivity.
  - intros k x Hx. simpl in Hx.
    apply lookup_singleton_Some in Hx as [_ <-]. reflexivity.
  - apply names_told_apart_NoDup, (bool_decide_unpack _). vm_compute.
    reflexivity.
  - vm_compute. reflexivity.
Defined.
